(** * Daily job search automation: shallow embedding and verified properties

    The development follows [daily_job_search_automation.py]:
    the paginated search client ([search_google_cse], [gather_results]),
    the digest formatter ([format_email_html]), the mail sender
    ([send_email_smtp]) and the entry point ([main]).

    Python values are modelled as follows.
    - [str] is a sequence of Unicode code points: [Text := list N].
    - [int] is [Z]; [len] is [Z.of_nat (length _)].
    - a [dict] read through [.get] is a finite map (the JSON items of the
      search API) or a record of optional fields (the result entries, of
      which the code only ever reads three keys).
    - the outside world (process environment, clock, search API, mail
      relay, console) is an explicit [World] threaded through a small
      state-and-exception monad. *)

From stdpp Require Import base option list gmap strings.
From Stdlib Require Import ZArith NArith Lia.

Open Scope Z_scope.

(** ** Text: Python [str] *)

Module Text.

Definition char := N.
Definition t := list char.

(** A source literal, written as a Rocq string of ASCII characters. *)
Definition lit (s : string) : t :=
  map Ascii.N_of_ascii (String.list_ascii_of_string s).

(** Code points the source names explicitly. *)
Definition c_amp : char := 38%N.
Definition c_lt : char := 60%N.
Definition c_gt : char := 62%N.
Definition c_quot : char := 34%N.
Definition c_apos : char := 39%N.
Definition c_nl : char := 10%N.

(** [s.replace(old, new)] for a one-character [old]. *)
Definition replace (old : char) (new : t) (s : t) : t :=
  flat_map (fun c => if N.eqb c old then new else [c]) s.

(** [sep.join(parts)]. *)
Fixpoint join (sep : t) (parts : list t) : t :=
  match parts with
  | [] => []
  | [p] => p
  | p :: rest => p ++ sep ++ join sep rest
  end.

(** [str.isspace] on one code point (CPython's [_PyUnicode_IsWhitespace]). *)
Definition is_space (c : char) : bool :=
  ((9 <=? c) && (c <=? 13) || (28 <=? c) && (c <=? 32)
   || (c =? 133) || (c =? 160) || (c =? 5760)
   || (8192 <=? c) && (c <=? 8202)
   || (c =? 8232) || (c =? 8233) || (c =? 8239) || (c =? 8287)
   || (c =? 12288))%N.

Fixpoint lstrip (s : t) : t :=
  match s with
  | c :: s' => if is_space c then lstrip s' else s
  | [] => []
  end.

Definition rstrip (s : t) : t := rev (lstrip (rev s)).

(** [s.strip()] *)
Definition strip (s : t) : t := rstrip (lstrip s).

(** Decimal rendering of a natural number, most significant digit first. *)
Definition digit (d : N) : char := (48 + d)%N.

Fixpoint dec_aux (fuel : nat) (n : N) (acc : t) : t :=
  match fuel with
  | O => acc
  | S fuel' =>
      let acc' := digit (n mod 10) :: acc in
      if (n / 10 =? 0)%N then acc' else dec_aux fuel' (n / 10) acc'
  end.

(** [str(n)] for [n >= 0]; a number has no more decimal digits than bits. *)
Definition dec (n : N) : t := dec_aux (S (N.size_nat n)) n [].

(** [f"{n:0{w}d}"]: zero padding on the left up to width [w]. *)
Definition zfill (w : nat) (s : t) : t :=
  replicate (w - length s)%nat (digit 0) ++ s.

(** [needle in hay] *)
Definition occurs (needle hay : t) : Prop :=
  exists pre post, hay = pre ++ needle ++ post.

End Text.

Abbreviation Text := Text.t.
Abbreviation lit := Text.lit.

(** ** The outside world *)

(** Query parameters of one GET to the search API ([params] in
    [search_google_cse]). *)
Record Params := mkParams {
  p_key : Text;
  p_cx : Text;
  p_q : Text;
  p_num : Z;
  p_start : Z
}.

Record Request := mkRequest {
  rq_url : Text;
  rq_params : Params;
  rq_timeout : Z
}.

(** One entry of the [items] array: a JSON object with string fields. *)
Abbreviation Item := (gmap string Text).

(** What [r.json()] yields: either the body does not decode (or is not an
    object), or it is an object whose [items] key may be absent. *)
Inductive JsonBody :=
  | NotJson
  | JsonObject (items : option (list Item)).

Record Response := mkResponse {
  status_code : Z;
  body : JsonBody
}.

(** What the network does with a GET: a transport failure (connection
    error, timeout) or a response. *)
Inductive Reply :=
  | Unreachable
  | Answer (r : Response).

(** The multipart message built by [send_email_smtp]. *)
Record Message := mkMessage {
  msg_subtype : Text;
  msg_from : Text;
  msg_to : Text;
  msg_subject : Text;
  msg_parts : list (Text * Text)  (* (MIME subtype, payload) *)
}.

Inductive SmtpCmd :=
  | Connect (host : Text) (port : Z)
  | Ehlo
  | StartTls
  | Login (user password : Text)
  | SendMail (sender : Text) (recipients : list Text) (msg : Message)
  | Quit.

(** A [datetime]: the civil fields [strftime] reads and the UTC offset of
    its [tzinfo] in minutes ([None] for a naive datetime). *)
Record DateTime := mkDateTime {
  year : N;
  month : N;
  day : N;
  hour : N;
  minute : N;
  tzoffset : option Z
}.

Inductive exn :=
  | RequestException
  | HTTPError (status : Z)
  | JSONDecodeError
  | SMTPException (cmd : SmtpCmd)
  | ValueError.

(** The world a run lives in.  [clock], [api] and [relay] are the parts the
    program cannot control: the wall clock read in a given zone, the answer
    of the search API to the [k]-th GET of the run, and whether the mail
    relay accepts the [k]-th command of the session.  The three logs record
    what the run has done so far. *)
Record World := mkWorld {
  environ : gmap string Text;
  clock : option Z -> DateTime;
  api : nat -> Request -> Reply;
  relay : nat -> SmtpCmd -> bool;
  http_log : list (Request * Reply);
  smtp_log : list SmtpCmd;
  stdout : list Text
}.

Definition log_http (c : Request * Reply) (w : World) : World :=
  mkWorld (environ w) (clock w) (api w) (relay w)
          (http_log w ++ [c]) (smtp_log w) (stdout w).

Definition log_smtp (c : SmtpCmd) (w : World) : World :=
  mkWorld (environ w) (clock w) (api w) (relay w)
          (http_log w) (smtp_log w ++ [c]) (stdout w).

Definition log_print (line : Text) (w : World) : World :=
  mkWorld (environ w) (clock w) (api w) (relay w)
          (http_log w) (smtp_log w) (stdout w ++ [line]).

(** ** Effects: state and exceptions *)

Inductive result (A : Type) :=
  | Ok (a : A) (w : World)      (* normal return *)
  | Raise (e : exn) (w : World) (* an exception propagates *)
  | OutOfFuel.                  (* the model ran out of loop fuel *)

Arguments Ok {A} a w.
Arguments Raise {A} e w.
Arguments OutOfFuel {A}.

Definition M (A : Type) : Type := World -> result A.

Definition ret {A} (a : A) : M A := fun w => Ok a w.

Definition raise {A} (e : exn) : M A := fun w => Raise e w.

Definition bind {A B} (m : M A) (k : A -> M B) : M B :=
  fun w =>
    match m w with
    | Ok a w' => k a w'
    | Raise e w' => Raise e w'
    | OutOfFuel => OutOfFuel
    end.

Notation "x <- m ;; k" := (bind m (fun x => k))
  (at level 100, m at next level, right associativity).
Notation "m ;;; k" := (bind m (fun _ => k))
  (at level 100, right associativity).

(** [print(line)] *)
Definition print (line : Text) : M unit :=
  fun w => Ok tt (log_print line w).

(** [datetime.now(tz)] *)
Definition datetime_now (tz : option Z) : M DateTime :=
  fun w => Ok (clock w tz) w.

(** [requests.get(url, params=params, timeout=timeout)] *)
Definition requests_get (url : Text) (params : Params) (timeout : Z)
  : M Response :=
  fun w =>
    let rq := mkRequest url params timeout in
    let rp := api w (length (http_log w)) rq in
    let w' := log_http (rq, rp) w in
    match rp with
    | Unreachable => Raise RequestException w'
    | Answer r => Ok r w'
    end.

(** [r.raise_for_status()]: client and server error statuses raise. *)
Definition raise_for_status (r : Response) : M unit :=
  if (400 <=? status_code r) && (status_code r <? 600)
  then raise (HTTPError (status_code r))
  else ret tt.

(** [r.json()] narrowed to what the caller reads from it. *)
Definition json (r : Response) : M (option (list Item)) :=
  match body r with
  | NotJson => raise JSONDecodeError
  | JsonObject items => ret items
  end.

(** One command of the SMTP session; a refusal raises. *)
Definition smtp (c : SmtpCmd) : M unit :=
  fun w =>
    let w' := log_smtp c w in
    if relay w (length (smtp_log w)) c then Ok tt w'
    else Raise (SMTPException c) w'.

(** ** The search client *)

Definition search_google_cse (query api_key cx : Text) (num start : Z)
  : M (list Item) :=
  let url := lit "https://www.googleapis.com/customsearch/v1" in
  let params := mkParams api_key cx query (Z.min num 10) start in
  r <- requests_get url params 20 ;;
  raise_for_status r ;;;
  js <- json r ;;
  ret (default [] js).

Record SearchResult := mkResult {
  title : option Text;
  link : option Text;
  snippet : option Text
}.

(** The dictionary appended for one item. *)
Definition entry_of (it : Item) : SearchResult :=
  mkResult (it !! "title"%string) (it !! "link"%string) (it !! "snippet"%string).

Definition len {A} (l : list A) : Z := Z.of_nat (length l).

(** What one pass through the loop body decides. *)
Inductive step :=
  | Break
  | Continue (results : list SearchResult) (start : Z).

(** The body of the [while] loop of [gather_results], entered in loop
    state [(results, start)]. *)
Definition gather_body (query api_key cx : Text) (max_total : Z)
    (results : list SearchResult) (start : Z) : M step :=
  items <- search_google_cse query api_key cx
             (Z.min 10 (max_total - len results)) start ;;
  match items with
  | [] => ret Break
  | _ :: _ =>
      ret (Continue (results ++ map entry_of items) (start + len items))
  end.

(** The [while] loop, started from any loop state.  One unit of fuel is
    spent per evaluation of the loop condition. *)
Fixpoint gather_loop (fuel : nat) (query api_key cx : Text) (max_total : Z)
    (results : list SearchResult) (start : Z) : M (list SearchResult) :=
  match fuel with
  | O => fun _ => OutOfFuel
  | S fuel' =>
      if len results <? max_total then
        s <- gather_body query api_key cx max_total results start ;;
        match s with
        | Break => ret results
        | Continue results' start' =>
            gather_loop fuel' query api_key cx max_total results' start'
        end
      else ret results
  end.

(** Fuel that always suffices (see [gather_loop_fuel]). *)
Definition gather_fuel (max_total : Z) : nat := S (Z.to_nat max_total).

Definition gather_results (query api_key cx : Text) (max_total : Z)
  : M (list SearchResult) :=
  gather_loop (gather_fuel max_total) query api_key cx max_total [] 1.

(** ** The digest formatter *)

(** [html.escape(s)] with its default [quote=True]: five successive
    replacements, the ampersand first. *)
Definition escape (s : Text) : Text :=
  let s := Text.replace Text.c_amp (lit "&amp;") s in
  let s := Text.replace Text.c_lt (lit "&lt;") s in
  let s := Text.replace Text.c_gt (lit "&gt;") s in
  let s := Text.replace Text.c_quot (lit "&quot;") s in
  let s := Text.replace Text.c_apos (lit "&#x27;") s in
  s.

(** [x or d] for an optional string [x]: [None] and the empty string are
    falsy. *)
Definition py_or (x : option Text) (d : Text) : Text :=
  match x with
  | Some (c :: s) => c :: s
  | _ => d
  end.

(** [tzinfo.tzname] of a fixed-offset [timezone] without a name; the empty
    string for a naive datetime. *)
Definition tzname (tz : option Z) : Text :=
  match tz with
  | None => []
  | Some 0 => lit "UTC"
  | Some off =>
      let sign := if off <? 0 then lit "-" else lit "+" in
      let m := Z.to_N (Z.abs off) in
      lit "UTC" ++ sign ++ Text.zfill 2 (Text.dec (m / 60))
        ++ lit ":" ++ Text.zfill 2 (Text.dec (m mod 60))
  end.

(** [dt.strftime('%Y-%m-%d')] (years are rendered on four digits) *)
Definition strftime_date (dt : DateTime) : Text :=
  Text.zfill 4 (Text.dec (year dt)) ++ lit "-"
    ++ Text.zfill 2 (Text.dec (month dt)) ++ lit "-"
    ++ Text.zfill 2 (Text.dec (day dt)).

(** [dt.strftime('%Y-%m-%d %H:%M %Z')] *)
Definition strftime_minute_zone (dt : DateTime) : Text :=
  strftime_date dt ++ lit " "
    ++ Text.zfill 2 (Text.dec (hour dt)) ++ lit ":"
    ++ Text.zfill 2 (Text.dec (minute dt)) ++ lit " "
    ++ tzname (tzoffset dt).

(** The [<li>] line appended for one result. *)
Definition item_line (r : SearchResult) : Text :=
  let title := escape (py_or (title r) (lit "No title")) in
  let link := escape (py_or (link r) []) in
  let snippet := escape (Text.strip (py_or (snippet r) [])) in
  lit "<li><a href=" ++ [Text.c_quot] ++ link ++ [Text.c_quot] ++ lit ">"
    ++ title ++ lit "</a><br/><small>" ++ snippet ++ lit "</small></li>".

(** The value of [lines] when [format_email_html] returns. *)
Definition digest_lines (now : DateTime) (results : list SearchResult)
    (query : Text) : list Text :=
  let lines := [] in
  let lines := lines ++ [lit "<h2>Job search results: " ++ escape query
                           ++ lit "</h2>"] in
  let lines := lines ++ [lit "<p>Search run at " ++ strftime_minute_zone now
                           ++ lit " (IST)</p>"] in
  let lines :=
    match results with
    | [] => lines ++ [lit "<p>No results found.</p>"]
    | _ :: _ =>
        let lines := lines ++ [lit "<ol>"] in
        let lines := lines ++ map item_line results in
        lines ++ [lit "</ol>"]
    end in
  lines ++ [lit "<hr/><p>Automation generated - tweak the queries or sources in the script as needed.</p>"].

(** Offset of [timezone(timedelta(hours=5, minutes=30))] in minutes. *)
Definition IST : option Z := Some (5 * 60 + 30).

Definition format_email_html (results : list SearchResult) (query : Text)
  : M Text :=
  now <- datetime_now IST ;;
  ret (Text.join [Text.c_nl] (digest_lines now results query)).

(** ** The mail sender *)

Definition send_email_smtp (sender password recipient subject html_body : Text)
    (smtp_server : Text) (smtp_port : Z) : M unit :=
  let msg := mkMessage (lit "alternative") sender recipient subject
               [(lit "html", html_body)] in
  smtp (Connect smtp_server smtp_port) ;;;
  smtp Ehlo ;;;
  smtp StartTls ;;;
  smtp (Login sender password) ;;;
  smtp (SendMail sender [recipient] msg) ;;;
  smtp Quit.

(** ** Configuration and entry point *)

(** The module-level settings. *)
Record Config := mkConfig {
  CSE_API_KEY : option Text;
  CSE_CX : option Text;
  EMAIL_USER : option Text;
  EMAIL_PASS : option Text;
  RECIPIENT_EMAIL : option Text;
  QUERY : Text;
  MAX_RESULTS : Z
}.

(** [os.getenv(name)] *)
Definition getenv (name : string) : M (option Text) :=
  fun w => Ok (environ w !! name) w.

(** The assignments executed when the module is loaded.  [py_int] stands
    for the builtin [int] on strings, which raises [ValueError] ([None])
    on text that is not an integer literal. *)
Definition module_init (py_int : Text -> option Z) : M Config :=
  key <- getenv "CSE_API_KEY" ;;
  cx <- getenv "CSE_CX" ;;
  user <- getenv "EMAIL_USER" ;;
  pass <- getenv "EMAIL_PASS" ;;
  rcpt <- getenv "RECIPIENT_EMAIL" ;;
  query <- getenv "JOB_QUERY" ;;
  cap <- getenv "MAX_RESULTS" ;;
  match py_int (default (lit "10") cap) with
  | None => raise ValueError
  | Some n =>
      ret (mkConfig key cx user pass rcpt
             (default (lit "entry level cyber security jobs startups") query) n)
  end.

(** Truth value of an optional string. *)
Definition truthy (v : option Text) : bool :=
  match v with
  | Some (_ :: _) => true
  | _ => false
  end.

(** The string held by a setting that passed the truthiness test. *)
Definition the (v : option Text) : Text := default [] v.

Definition missing_notice : Text :=
  lit "Missing one of required environment variables: CSE_API_KEY, CSE_CX, EMAIL_USER, EMAIL_PASS, RECIPIENT_EMAIL".

(** U+2014, the dash of the subject line. *)
Definition c_emdash : Text.char := 8212%N.

Definition main (cfg : Config) : M unit :=
  if negb (truthy (CSE_API_KEY cfg) && truthy (CSE_CX cfg)
           && truthy (EMAIL_USER cfg) && truthy (EMAIL_PASS cfg)
           && truthy (RECIPIENT_EMAIL cfg))
  then print missing_notice
  else
    print (lit "Gathering job results...") ;;;
    results <- gather_results (QUERY cfg) (the (CSE_API_KEY cfg))
                 (the (CSE_CX cfg)) (MAX_RESULTS cfg) ;;
    print (lit "Found " ++ Text.dec (N.of_nat (length results))
             ++ lit " results") ;;;
    html <- format_email_html results (QUERY cfg) ;;
    today <- datetime_now None ;;
    let subject := lit "Daily job digest " ++ [c_emdash] ++ lit " "
                     ++ QUERY cfg ++ lit " " ++ [c_emdash] ++ lit " "
                     ++ strftime_date today in
    print (lit "Sending email...") ;;;
    send_email_smtp (the (EMAIL_USER cfg)) (the (EMAIL_PASS cfg))
      (the (RECIPIENT_EMAIL cfg)) subject html (lit "smtp.gmail.com") 587 ;;;
    print (lit "Email sent.").

(** Running the file as a script: load the module, then call [main]. *)
Definition script (py_int : Text -> option Z) : M unit :=
  cfg <- module_init py_int ;;
  main cfg.

(** ** Vocabulary of the statements *)

(** *** Runs of the search client *)

(** What [search_google_cse] makes of one reply: the exception it raises
    or the list it returns. *)
Definition reply_outcome (rp : Reply) : exn + list Item :=
  match rp with
  | Unreachable => inl RequestException
  | Answer r =>
      if (400 <=? status_code r) && (status_code r <? 600)
      then inl (HTTPError (status_code r))
      else match body r with
           | NotJson => inl JSONDecodeError
           | JsonObject items => inr (default [] items)
           end
  end.

(** The items a logged call delivered to the loop (none if it raised). *)
Definition items_of (c : Request * Reply) : list Item :=
  match reply_outcome c.2 with
  | inr items => items
  | inl _ => []
  end.

(** The [num] parameter a logged call carried. *)
Definition num_of (c : Request * Reply) : Z := p_num (rq_params c.1).

(** The [start] parameter a logged call carried. *)
Definition start_of (c : Request * Reply) : Z := p_start (rq_params c.1).

(** The GETs issued between world [w] and a later world [w']. *)
Definition calls (w w' : World) : list (Request * Reply) :=
  drop (length (http_log w)) (http_log w').

(** The request the loop body sends in loop state [(results, start)]. *)
Definition request_for (query api_key cx : Text) (max_total : Z)
    (results : list SearchResult) (start : Z) : Request :=
  mkRequest (lit "https://www.googleapis.com/customsearch/v1")
    (mkParams api_key cx query
       (Z.min (Z.min 10 (max_total - len results)) 10) start)
    20.

(** The world after the calls [tr] have been appended to the HTTP log. *)
Definition extend_http (tr : list (Request * Reply)) (w : World) : World :=
  mkWorld (environ w) (clock w) (api w) (relay w)
          (http_log w ++ tr) (smtp_log w) (stdout w).

Definition finish {A} (out : exn + A) (w : World) : result A :=
  match out with
  | inl e => Raise e w
  | inr a => Ok a w
  end.

(** The calls a run of the loop makes from loop state [(results, start)],
    and how it ends: a big-step reading of [gather_loop]. *)
Inductive gather_trace (query api_key cx : Text) (max_total : Z)
  : list SearchResult -> Z -> list (Request * Reply)
    -> exn + list SearchResult -> Prop :=
  | gt_full rs st :
      max_total <= len rs ->
      gather_trace query api_key cx max_total rs st [] (inr rs)
  | gt_raise rs st rp e :
      len rs < max_total ->
      reply_outcome rp = inl e ->
      gather_trace query api_key cx max_total rs st
        [(request_for query api_key cx max_total rs st, rp)] (inl e)
  | gt_break rs st rp :
      len rs < max_total ->
      reply_outcome rp = inr [] ->
      gather_trace query api_key cx max_total rs st
        [(request_for query api_key cx max_total rs st, rp)] (inr rs)
  | gt_more rs st rp it its tr out :
      len rs < max_total ->
      reply_outcome rp = inr (it :: its) ->
      gather_trace query api_key cx max_total
        (rs ++ map entry_of (it :: its)) (st + len (it :: its)) tr out ->
      gather_trace query api_key cx max_total rs st
        ((request_for query api_key cx max_total rs st, rp) :: tr) out.

(** The replies of the calls [tr] are the answers of the oracle [f] to
    calls number [k], [k + 1], ... *)
Fixpoint answered_by (f : nat -> Request -> Reply) (k : nat)
    (tr : list (Request * Reply)) : Prop :=
  match tr with
  | [] => True
  | c :: tr' => c.2 = f k c.1 /\ answered_by f (S k) tr'
  end.

(** An API that never answers a call for [num >= 1] items with more than
    [num] items. *)
Definition honours_num (f : nat -> Request -> Reply) : Prop :=
  forall k rq,
    1 <= p_num (rq_params rq) ->
    len (items_of (rq, f k rq)) <= p_num (rq_params rq).

(** The reply carries no more items than the call asked for. *)
Definition within_request (c : Request * Reply) : bool :=
  len (items_of c) <=? num_of c.

(** The reply carries exactly as many items as the call asked for. *)
Definition full_page (c : Request * Reply) : bool :=
  len (items_of c) =? num_of c.

(** [ceil(n / 10)] *)
Definition ceil10 (n : Z) : Z := (n + 9) / 10.

(** "The returned list is never longer than [max_total]", for one run. *)
Definition length_within_max (query api_key cx : Text) (max_total : Z)
    (w : World) : Prop :=
  forall results w',
    gather_results query api_key cx max_total w = Ok results w' ->
    len results <= max_total.

(** "Collecting [N <= max_total] results takes exactly [ceil(N/10)] calls",
    for one run. *)
Definition calls_exactly_ceil (query api_key cx : Text) (max_total : Z)
    (w : World) : Prop :=
  forall results w',
    gather_results query api_key cx max_total w = Ok results w' ->
    len results <= max_total ->
    len (calls w w') = ceil10 (len results).

(** The world in which the variable [name] is removed from the process
    environment. *)
Definition unsetenv (name : string) (w : World) : World :=
  mkWorld (delete name (environ w)) (clock w) (api w) (relay w)
          (http_log w) (smtp_log w) (stdout w).

(** *** Markup characters *)

(** What [html.escape] emits for one character. *)
Definition esc_char (c : Text.char) : Text :=
  if (c =? Text.c_amp)%N then lit "&amp;"
  else if (c =? Text.c_lt)%N then lit "&lt;"
  else if (c =? Text.c_gt)%N then lit "&gt;"
  else if (c =? Text.c_quot)%N then lit "&quot;"
  else if (c =? Text.c_apos)%N then lit "&#x27;"
  else [c].

Definition is_angle (c : Text.char) : bool :=
  ((c =? Text.c_lt) || (c =? Text.c_gt))%N.

Definition is_markup (c : Text.char) : bool :=
  (is_angle c || (c =? Text.c_amp))%N.

(** No [<] or [>] at all. *)
Definition no_angle (s : Text) : bool := forallb (fun c => negb (is_angle c)) s.

(** No [<], [>] or [&] at all. *)
Definition no_markup (s : Text) : bool := forallb (fun c => negb (is_markup c)) s.

Fixpoint starts_with (p s : Text) : bool :=
  match p, s with
  | [], _ => true
  | a :: p', b :: s' => (a =? b)%N && starts_with p' s'
  | _ :: _, [] => false
  end.

(** The five character references [html.escape] produces, without their
    leading ampersand. *)
Definition references : list Text :=
  [lit "amp;"; lit "lt;"; lit "gt;"; lit "quot;"; lit "#x27;"].

(** Every [&] of [s] opens one of the five character references. *)
Fixpoint amp_escaped (s : Text) : bool :=
  match s with
  | [] => true
  | c :: s' =>
      (if (c =? Text.c_amp)%N then existsb (fun p => starts_with p s') references
       else true)
      && amp_escaped s'
  end.

(** Every [<] of [s] is directly followed by one of the characters [next]. *)
Fixpoint lt_followed (next : list Text.char) (s : Text) : bool :=
  match s with
  | [] => true
  | c :: s' =>
      (if (c =? Text.c_lt)%N then
         match s' with
         | d :: _ => existsb (N.eqb d) next
         | [] => false
         end
       else true)
      && lt_followed next s'
  end.

(** The characters that follow [<] in a digest without results:
    [h], [/] and [p]. *)
Definition tag_openers : list Text.char := [104; 47; 112]%N.

(** A result none of whose fields is present. *)
Definition blank : SearchResult := mkResult None None None.

(** *** Sample worlds *)

Definition sample_item : Item :=
  <["title"%string := lit "SOC analyst <junior>"]>
    (<["link"%string := lit "https://jobs.example/?a=1&b=2"]> ∅).

Definition reply_with (items : list Item) : Reply :=
  Answer (mkResponse 200 (JsonObject (Some items))).

(** An API with unlimited results that honours [num]. *)
Definition api_plenty (k : nat) (rq : Request) : Reply :=
  reply_with (replicate (Z.to_nat (p_num (rq_params rq))) sample_item).

(** An API that has no result at all. *)
Definition api_dry (k : nat) (rq : Request) : Reply := reply_with [].

(** An API that has three results in total. *)
Definition api_three (k : nat) (rq : Request) : Reply :=
  match k with
  | O => reply_with (replicate 3 sample_item)
  | S _ => reply_with []
  end.

(** An API that ignores [num] and always sends ten items. *)
Definition api_flood (k : nat) (rq : Request) : Reply :=
  reply_with (replicate 10 sample_item).

Definition sample_clock (tz : option Z) : DateTime :=
  mkDateTime 2026 11 3 13 5 tz.

Definition world_of (env : gmap string Text)
    (f : nat -> Request -> Reply) : World :=
  mkWorld env sample_clock f (fun _ _ => true) [] [] [].

(** A world that differs from [world_of ∅ api_plenty] in everything but
    the clock. *)
Definition busy_world : World :=
  mkWorld (<["JOB_QUERY"%string := lit "x"]> ∅) sample_clock api_dry
          (fun _ _ => false) [] [Ehlo] [lit "hello"].

Definition sample_results : list SearchResult :=
  [mkResult (Some (lit "a<b>&c")) None (Some (lit "  it's here  "));
   mkResult None (Some (lit "http://x/?a=1&b=2")) None].

(** A stand-in for the builtin [int] on the two literals used below. *)
Definition sample_int (s : Text) : option Z :=
  if bool_decide (s = lit "10") then Some 10
  else if bool_decide (s = lit "3") then Some 3
  else None.

(** An environment that lacks [EMAIL_PASS]. *)
Definition env_no_pass : gmap string Text :=
  <["CSE_API_KEY"%string := lit "k"]>
    (<["CSE_CX"%string := lit "cx"]>
       (<["EMAIL_USER"%string := lit "me@example.org"]>
          (<["RECIPIENT_EMAIL"%string := lit "you@example.org"]> ∅))).

(** The same environment with [EMAIL_PASS] set to the empty string. *)
Definition env_empty_pass : gmap string Text :=
  <["EMAIL_PASS"%string := []]> env_no_pass.

Definition required_names : list string :=
  ["CSE_API_KEY"; "CSE_CX"; "EMAIL_USER"; "EMAIL_PASS"; "RECIPIENT_EMAIL"]%string.

(** Settings as [module_init] reads them from [env_no_pass] and from
    [env_empty_pass]. *)
Definition cfg_no_pass : Config :=
  mkConfig (Some (lit "k")) (Some (lit "cx")) (Some (lit "me@example.org"))
    None (Some (lit "you@example.org"))
    (lit "entry level cyber security jobs startups") 10.

Definition cfg_empty_pass : Config :=
  mkConfig (Some (lit "k")) (Some (lit "cx")) (Some (lit "me@example.org"))
    (Some []) (Some (lit "you@example.org"))
    (lit "entry level cyber security jobs startups") 10.

(** Settings with every required value present and a cap of three. *)
Definition cfg_full : Config :=
  mkConfig (Some (lit "k")) (Some (lit "cx")) (Some (lit "me@example.org"))
    (Some (lit "secret")) (Some (lit "you@example.org"))
    (lit "entry level cyber security jobs") 3.

(** *** Mail sessions *)

(** The message [send_email_smtp] builds. *)
Definition digest_message (sender recipient subject html_body : Text)
  : Message :=
  mkMessage (lit "alternative") sender recipient subject
    [(lit "html", html_body)].

(** The commands of a complete session of [send_email_smtp], in order. *)
Definition session (sender password recipient subject html_body : Text)
    (smtp_server : Text) (smtp_port : Z) : list SmtpCmd :=
  [Connect smtp_server smtp_port; Ehlo; StartTls; Login sender password;
   SendMail sender [recipient]
     (digest_message sender recipient subject html_body);
   Quit].

(** The SMTP commands issued between world [w] and a later world [w']. *)
Definition smtp_calls (w w' : World) : list SmtpCmd :=
  drop (length (smtp_log w)) (smtp_log w').

(** How many of the commands [cs], sent as commands number [k], [k + 1],
    ..., the relay [f] accepts before it refuses one. *)
Fixpoint accepted (f : nat -> SmtpCmd -> bool) (k : nat) (cs : list SmtpCmd)
  : nat :=
  match cs with
  | [] => O
  | c :: cs' => if f k c then S (accepted f (S k) cs') else O
  end.

Definition is_sendmail (c : SmtpCmd) : bool :=
  match c with
  | SendMail _ _ _ => true
  | _ => false
  end.

(** The world after the commands [cs] have been appended to the SMTP log. *)
Definition extend_smtp (cs : list SmtpCmd) (w : World) : World :=
  mkWorld (environ w) (clock w) (api w) (relay w)
          (http_log w) (smtp_log w ++ cs) (stdout w).

(** Commands in sequence, stopping at the first refusal. *)
Fixpoint smtp_all (cs : list SmtpCmd) : M unit :=
  match cs with
  | [] => ret tt
  | c :: cs' => smtp c ;;; smtp_all cs'
  end.

(** *** Complete settings *)

(** The test [main] makes before it starts working. *)
Definition configured (cfg : Config) : bool :=
  truthy (CSE_API_KEY cfg) && truthy (CSE_CX cfg) && truthy (EMAIL_USER cfg)
    && truthy (EMAIL_PASS cfg) && truthy (RECIPIENT_EMAIL cfg).

(** The subject line [main] composes from the query and a date. *)
Definition subject_line (query : Text) (today : DateTime) : Text :=
  lit "Daily job digest " ++ [c_emdash] ++ lit " " ++ query ++ lit " "
    ++ [c_emdash] ++ lit " " ++ strftime_date today.

(** The progress line that reports the number of results. *)
Definition found_line (n : nat) : Text :=
  lit "Found " ++ Text.dec (N.of_nat n) ++ lit " results".

(** The session [main] opens for the results [rs], read off the settings
    and the two clock readings of world [w]. *)
Definition main_session (cfg : Config) (w : World) (rs : list SearchResult)
  : list SmtpCmd :=
  session (the (EMAIL_USER cfg)) (the (EMAIL_PASS cfg))
    (the (RECIPIENT_EMAIL cfg))
    (subject_line (QUERY cfg) (clock w None))
    (Text.join [Text.c_nl] (digest_lines (clock w IST) rs (QUERY cfg)))
    (lit "smtp.gmail.com") 587.

(** *** Decoding character references *)

(** The inverse of [html.escape] on its own output: the five character
    references are read back, everything else is kept. *)
Fixpoint unescape_aux (fuel : nat) (s : Text) : Text :=
  match fuel with
  | O => []
  | S fuel' =>
      match s with
      | [] => []
      | c :: s' =>
          if (c =? Text.c_amp)%N then
            if starts_with (lit "amp;") s'
            then Text.c_amp :: unescape_aux fuel' (drop 4 s')
            else if starts_with (lit "lt;") s'
            then Text.c_lt :: unescape_aux fuel' (drop 3 s')
            else if starts_with (lit "gt;") s'
            then Text.c_gt :: unescape_aux fuel' (drop 3 s')
            else if starts_with (lit "quot;") s'
            then Text.c_quot :: unescape_aux fuel' (drop 5 s')
            else if starts_with (lit "#x27;") s'
            then Text.c_apos :: unescape_aux fuel' (drop 5 s')
            else c :: unescape_aux fuel' s'
          else c :: unescape_aux fuel' s'
      end
  end.

Definition unescape (s : Text) : Text := unescape_aux (length s) s.

(** One of the five characters [html.escape] rewrites. *)
Definition is_special (c : Text.char) : bool :=
  (is_markup c || (c =? Text.c_quot) || (c =? Text.c_apos))%N.

(** *** More sample worlds *)

(** An API that serves one full page and then fails. *)
Definition api_then_503 (k : nat) (rq : Request) : Reply :=
  match k with
  | O => reply_with (replicate 10 sample_item)
  | S _ => Answer (mkResponse 503 (JsonObject (Some [sample_item])))
  end.

(** A relay that refuses every login. *)
Definition relay_no_login (k : nat) (c : SmtpCmd) : bool :=
  match c with
  | Login _ _ => false
  | _ => true
  end.

Definition world_with (f : nat -> Request -> Reply)
    (r : nat -> SmtpCmd -> bool) : World :=
  mkWorld ∅ sample_clock f r [] [] [].


(** An environment whose [MAX_RESULTS] is not a number. *)
Definition env_bad_cap : gmap string Text :=
  <["MAX_RESULTS"%string := lit "ten"]> ∅.

(** An environment whose [JOB_QUERY] is the empty string. *)
Definition env_empty_query : gmap string Text :=
  <["JOB_QUERY"%string := lit ""]> ∅.

(** *** Counting *)

Definition is_quote (c : Text.char) : bool :=
  ((c =? Text.c_quot) || (c =? Text.c_apos))%N.

(** Number of positions of [s] at which [p] occurs. *)
Fixpoint count_sub (p s : Text) : nat :=
  match s with
  | [] => O
  | c :: s' => ((if starts_with p s then 1 else 0) + count_sub p s')%nat
  end.

(** Appending a text to [a] creates no occurrence of [p] that starts
    in [a]. *)
Definition additive (p a : Text) : Prop :=
  forall b, count_sub p (a ++ b) = (count_sub p a + count_sub p b)%nat.

(** The fixed pieces of text of a digest. *)
Definition template_literals : list Text :=
  [lit "<h2>Job search results: "; lit "</h2>";
   lit "<p>Search run at "; lit " (IST)</p>";
   lit "<p>No results found.</p>"; lit "<ol>"; lit "</ol>";
   lit "<hr/><p>Automation generated - tweak the queries or sources in the script as needed.</p>";
   lit "<li><a href="; [Text.c_quot]; lit ">"; lit "</a><br/><small>";
   lit "</small></li>"; [Text.c_nl]].

(** * Properties *)

(** ** Sanity checks of the text primitives *)

Example lit_ab : lit "a<" = [97%N; 60%N].
Proof. reflexivity. Qed.

Example dec_2026 : Text.dec 2026 = lit "2026".
Proof. reflexivity. Qed.

Example dec_0 : Text.dec 0 = lit "0".
Proof. reflexivity. Qed.

Example zfill_7 : Text.zfill 2 (Text.dec 7) = lit "07".
Proof. reflexivity. Qed.

Example strip_ex : Text.strip (lit "  a b  ") = lit "a b".
Proof. reflexivity. Qed.

Example join_ex : Text.join (lit ",") [lit "a"; lit "b"; lit "c"] = lit "a,b,c".
Proof. reflexivity. Qed.


(** ** Two runs worked out *)

(** A cap of three against an API with plenty of results: one call, with
    [num = 3] and [start = 1], and a digest with three list items. *)
Example gather_three_of_plenty :
  exists rs w',
    gather_results (lit "entry level cyber security jobs") (lit "k") (lit "cx")
      3 (world_of ∅ api_plenty) = Ok rs w'
    /\ length rs = 3%nat
    /\ map (fun c => (num_of c, start_of c)) (http_log w') = [(3, 1)]
    /\ length (List.filter (starts_with (lit "<li>"))
                 (digest_lines (sample_clock IST) rs (lit "q"))) = 3%nat.
Proof. eexists _, _. vm_compute. repeat split. Qed.

(** Twenty-five from the same API: three calls, the last one for five. *)
Example gather_twenty_five_of_plenty :
  exists rs w',
    gather_results (lit "q") (lit "k") (lit "cx") 25 (world_of ∅ api_plenty)
    = Ok rs w'
    /\ map (fun c => (num_of c, start_of c)) (http_log w')
       = [(10, 1); (10, 11); (5, 21)].
Proof. eexists _, _. vm_compute. repeat split. Qed.

(** An API without results: the digest carries the notice and the mail is
    sent all the same. *)
Example main_with_dry_api :
  exists w',
    main cfg_full (world_of ∅ api_dry) = Ok tt w'
    /\ stdout w'
       = [lit "Gathering job results..."; lit "Found 0 results";
          lit "Sending email..."; lit "Email sent."]
    /\ length (http_log w') = 1%nat
    /\ length (smtp_log w') = 6%nat.
Proof. eexists. vm_compute. repeat split. Qed.

(** A server error ends the run with the exception, before any mail. *)
Example main_with_failing_api :
  exists w',
    main cfg_full
      (world_of ∅ (fun _ _ => Answer (mkResponse 503 NotJson)))
    = Raise (HTTPError 503) w'
    /\ smtp_log w' = [].
Proof. eexists. vm_compute. repeat split. Qed.

(** ** The world and the monad *)

Lemma extend_http_nil w : extend_http [] w = w.
Proof. destruct w; unfold extend_http; simpl. by rewrite app_nil_r. Qed.

Lemma extend_http_app tr1 tr2 w :
  extend_http tr2 (extend_http tr1 w) = extend_http (tr1 ++ tr2) w.
Proof. unfold extend_http; simpl. by rewrite app_assoc. Qed.

Lemma calls_extend_http tr w : calls w (extend_http tr w) = tr.
Proof. unfold calls, extend_http; simpl. by rewrite drop_app_length. Qed.

Lemma len_app {A} (l1 l2 : list A) : len (l1 ++ l2) = len l1 + len l2.
Proof. unfold len. rewrite length_app. lia. Qed.

Lemma len_map {A B} (f : A -> B) (l : list A) : len (map f l) = len l.
Proof. unfold len. by rewrite length_map. Qed.

Lemma len_cons {A} (x : A) (l : list A) : len (x :: l) = 1 + len l.
Proof. unfold len. simpl length. lia. Qed.

Lemma len_nonneg {A} (l : list A) : 0 <= len l.
Proof. unfold len. lia. Qed.

(** ** The search client *)

Section Gather.

Variables (query api_key cx : Text) (max_total : Z).

Local Abbreviation trace := (gather_trace query api_key cx max_total).
Local Abbreviation request := (request_for query api_key cx max_total).

(** One call: the request goes to the oracle, the pair is logged, and the
    reply decides between an exception and a list of items. *)
Lemma search_google_cse_run num start w :
  let rq := mkRequest (lit "https://www.googleapis.com/customsearch/v1")
              (mkParams api_key cx query (Z.min num 10) start) 20 in
  let rp := api w (length (http_log w)) rq in
  search_google_cse query api_key cx num start w
  = finish (reply_outcome rp) (extend_http [(rq, rp)] w).
Proof.
  intros rq rp.
  unfold search_google_cse, bind, requests_get, raise_for_status, json.
  fold rq. fold rp. unfold reply_outcome.
  destruct rp as [|r]; [reflexivity|].
  destruct ((400 <=? status_code r) && (status_code r <? 600)); [reflexivity|].
  cbn. destruct (body r); reflexivity.
Qed.

Lemma gather_body_run rs st w :
  let rp := api w (length (http_log w)) (request rs st) in
  let w' := extend_http [(request rs st, rp)] w in
  gather_body query api_key cx max_total rs st w
  = match reply_outcome rp with
    | inl e => Raise e w'
    | inr [] => Ok Break w'
    | inr (it :: its) =>
        Ok (Continue (rs ++ map entry_of (it :: its)) (st + len (it :: its))) w'
    end.
Proof.
  intros rp w'. unfold gather_body, bind.
  rewrite search_google_cse_run. fold (request rs st). fold rp. fold w'.
  destruct (reply_outcome rp) as [e|[|it its]]; reflexivity.
Qed.

(** The loop, given fuel beyond the distance to [max_total], performs
    exactly a big-step run. *)
Lemma gather_loop_trace fuel :
  forall rs st w,
    (Z.to_nat (max_total - len rs) < fuel)%nat ->
    exists tr out,
      trace rs st tr out
      /\ answered_by (api w) (length (http_log w)) tr
      /\ gather_loop fuel query api_key cx max_total rs st w
         = finish out (extend_http tr w).
Proof.
  induction fuel as [|fuel IH]; intros rs st w Hfuel; [lia|].
  cbn [gather_loop].
  destruct (Z.ltb_spec (len rs) max_total) as [Hlt|Hge].
  - unfold bind. rewrite gather_body_run.
    set (rp := api w _ _).
    destruct (reply_outcome rp) as [e|[|it its]] eqn:Hrp.
    + exists [(request rs st, rp)], (inl e).
      split; [by apply gt_raise|]. split; [|reflexivity]. by cbn.
    + exists [(request rs st, rp)], (inr rs).
      split; [by apply gt_break|]. split; [|reflexivity]. by cbn.
    + destruct (IH (rs ++ map entry_of (it :: its)) (st + len (it :: its))
                  (extend_http [(request rs st, rp)] w))
        as (tr & out & Htr & Hans & Hrun).
      { rewrite len_app, len_map, len_cons.
        pose proof (len_nonneg its). lia. }
      exists ((request rs st, rp) :: tr), out.
      split; [by eapply gt_more|]. split.
      * split; [reflexivity|].
        cbn [extend_http api http_log] in Hans.
        rewrite length_app, Nat.add_1_r in Hans. exact Hans.
      * rewrite Hrun, extend_http_app. reflexivity.
  - exists [], (inr rs). split; [by apply gt_full|].
    split; [exact I|]. by rewrite extend_http_nil.
Qed.

(** More fuel than needed changes nothing. *)
Lemma gather_loop_fuel fuel :
  forall extra rs st w,
    (Z.to_nat (max_total - len rs) < fuel)%nat ->
    gather_loop (fuel + extra) query api_key cx max_total rs st w
    = gather_loop fuel query api_key cx max_total rs st w.
Proof.
  induction fuel as [|fuel IH]; intros extra rs st w Hfuel; [lia|].
  cbn [gather_loop Nat.add].
  destruct (Z.ltb_spec (len rs) max_total) as [Hlt|Hge]; [|reflexivity].
  unfold bind. rewrite gather_body_run.
  destruct (reply_outcome _) as [e|[|it its]]; try reflexivity.
  apply IH. rewrite len_app, len_map, len_cons.
  pose proof (len_nonneg its). lia.
Qed.

(** A run of [gather_results] that returns is a big-step run from the
    initial loop state, and the world only grows by the calls made. *)
Lemma gather_results_trace w :
  exists tr out,
    trace [] 1 tr out
    /\ answered_by (api w) (length (http_log w)) tr
    /\ gather_results query api_key cx max_total w
       = finish out (extend_http tr w).
Proof.
  unfold gather_results, gather_fuel. apply gather_loop_trace.
  change (len (@nil SearchResult)) with 0. lia.
Qed.

Lemma gather_results_fuelled w :
  gather_results query api_key cx max_total w <> OutOfFuel.
Proof.
  destruct (gather_results_trace w) as (tr & [e|rs] & _ & _ & ->);
    discriminate.
Qed.

Lemma gather_results_ok w results w' :
  gather_results query api_key cx max_total w = Ok results w' ->
  trace [] 1 (calls w w') (inr results).
Proof.
  destruct (gather_results_trace w) as (tr & out & Htr & _ & Hrun).
  rewrite Hrun. destruct out as [e|rs]; cbn; [discriminate|].
  intros [= <- <-]. by rewrite calls_extend_http.
Qed.

(** The log records what the oracle answered, call by call. *)
Lemma gather_results_answered w results w' :
  gather_results query api_key cx max_total w = Ok results w' ->
  answered_by (api w) (length (http_log w)) (calls w w').
Proof.
  destruct (gather_results_trace w) as (tr & out & _ & Hans & Hrun).
  rewrite Hrun. destruct out as [e|rs]; cbn; [discriminate|].
  intros [= <- <-]. by rewrite calls_extend_http.
Qed.

(** *** Facts about big-step runs *)

Lemma items_of_reply rq rp items :
  reply_outcome rp = inr items -> items_of (rq, rp) = items.
Proof. unfold items_of; cbn. by intros ->. Qed.

Lemma num_of_request rs st rp :
  num_of (request rs st, rp) = Z.min 10 (max_total - len rs).
Proof. unfold num_of; cbn. lia. Qed.

(** The returned list is the initial one followed by every item received,
    in order. *)
Lemma trace_results rs st tr o :
  trace rs st tr o ->
  forall out, o = inr out ->
  out = rs ++ map entry_of (flat_map items_of tr).
Proof.
  induction 1 as [rs st Hge|rs st rp e Hlt Hrp|rs st rp Hlt Hrp
                  |rs st rp it its tr o Hlt Hrp Htr IH]; intros out Ho.
  - injection Ho as <-. cbn. by rewrite app_nil_r.
  - discriminate.
  - injection Ho as <-. cbn. rewrite (items_of_reply _ _ _ Hrp).
    cbn. by rewrite app_nil_r.
  - rewrite (IH out Ho). cbn [flat_map].
    rewrite (items_of_reply _ _ _ Hrp), map_app, app_assoc. reflexivity.
Qed.

(** What the [i]-th call asks for. *)
Lemma trace_request rs st tr o :
  trace rs st tr o ->
  forall i c, tr !! i = Some c ->
  let got := len (flat_map items_of (take i tr)) in
  num_of c = Z.min 10 (max_total - (len rs + got))
  /\ start_of c = st + got.
Proof.
  induction 1 as [rs st Hge|rs st rp e Hlt Hrp|rs st rp Hlt Hrp
                  |rs st rp it its tr o Hlt Hrp Htr IH]; intros i c Hi.
  - discriminate.
  - destruct i; [|discriminate]. injection Hi as <-. cbn.
    unfold num_of, start_of; cbn. change (len []) with 0. lia.
  - destruct i; [|discriminate]. injection Hi as <-. cbn.
    unfold num_of, start_of; cbn. change (len []) with 0. lia.
  - destruct i as [|i].
    + injection Hi as <-. cbn.
      unfold num_of, start_of; cbn. change (len []) with 0. lia.
    + cbn in Hi. destruct (IH i c Hi) as [Hn Hs].
      cbn [take flat_map]. cbn zeta.
      rewrite (items_of_reply _ _ _ Hrp), len_app.
      rewrite len_app, len_map in Hn. split; lia.
Qed.

(** A call that delivers nothing is the last one. *)
Lemma trace_break rs st tr o :
  trace rs st tr o ->
  forall out, o = inr out ->
  forall i c, tr !! i = Some c -> items_of c = [] ->
  length tr = S i.
Proof.
  induction 1 as [rs st Hge|rs st rp e Hlt Hrp|rs st rp Hlt Hrp
                  |rs st rp it its tr o Hlt Hrp Htr IH];
    intros out Ho i c Hi Hc.
  - discriminate.
  - discriminate.
  - destruct i; [reflexivity|discriminate].
  - destruct i as [|i].
    + injection Hi as <-. rewrite (items_of_reply _ _ _ Hrp) in Hc.
      discriminate.
    + cbn in Hi. cbn. f_equal. by eapply IH.
Qed.

(** With replies no longer than requested the loop never overshoots. *)
Lemma trace_bound rs st tr o :
  trace rs st tr o ->
  forall out, o = inr out ->
  forallb within_request tr = true ->
  len out <= Z.max max_total (len rs).
Proof.
  induction 1 as [rs st Hge|rs st rp e Hlt Hrp|rs st rp Hlt Hrp
                  |rs st rp it its tr o Hlt Hrp Htr IH];
    intros out Ho Hall.
  - injection Ho as <-. lia.
  - discriminate.
  - injection Ho as <-. lia.
  - cbn in Hall. apply andb_prop in Hall as [Hc Hall].
    unfold within_request in Hc. apply Z.leb_le in Hc.
    rewrite (items_of_reply _ _ _ Hrp), num_of_request in Hc.
    specialize (IH out Ho Hall).
    rewrite len_app, len_map in IH. lia.
Qed.

(** Ten items per call at most: at least a tenth as many calls as items. *)
Lemma trace_lower rs st tr o :
  trace rs st tr o ->
  forall out, o = inr out ->
  forallb within_request tr = true ->
  len out - len rs <= 10 * len tr.
Proof.
  induction 1 as [rs st Hge|rs st rp e Hlt Hrp|rs st rp Hlt Hrp
                  |rs st rp it its tr o Hlt Hrp Htr IH];
    intros out Ho Hall.
  - injection Ho as <-. change (len []) with 0. lia.
  - discriminate.
  - injection Ho as <-. rewrite len_cons. change (len []) with 0. lia.
  - cbn in Hall. apply andb_prop in Hall as [Hc Hall].
    unfold within_request in Hc. apply Z.leb_le in Hc.
    rewrite (items_of_reply _ _ _ Hrp), num_of_request in Hc.
    specialize (IH out Ho Hall).
    rewrite len_app, len_map in IH. rewrite len_cons. lia.
Qed.

Lemma ceil10_step d : 1 <= d -> 1 + ceil10 (d - Z.min 10 d) = ceil10 d.
Proof.
  intros Hd. unfold ceil10.
  destruct (Z.le_gt_cases 10 d) as [H|H].
  - rewrite Z.min_l by lia.
    replace (d + 9) with ((d - 10 + 9) + 1 * 10) by lia.
    rewrite Z.div_add by lia. lia.
  - rewrite Z.min_r by lia. replace (d - d + 9) with 9 by lia.
    change (9 / 10) with 0.
    symmetry. rewrite Z.add_0_r.
    assert (Hq : (d + 9) / 10 = 1); [|by rewrite Hq].
    symmetry. apply (Z.div_unique _ _ _ (d - 1)); lia.
Qed.

(** When every reply is a full page the loop stops exactly at [max_total],
    after one call per started ten. *)
Lemma trace_full rs st tr o :
  trace rs st tr o ->
  forall out, o = inr out ->
  forallb full_page tr = true ->
  len rs <= max_total ->
  len out = max_total /\ len tr = ceil10 (max_total - len rs).
Proof.
  induction 1 as [rs st Hge|rs st rp e Hlt Hrp|rs st rp Hlt Hrp
                  |rs st rp it its tr o Hlt Hrp Htr IH];
    intros out Ho Hall Hle.
  - injection Ho as <-. split; [lia|].
    replace (max_total - len rs) with 0 by lia. reflexivity.
  - discriminate.
  - exfalso. cbn in Hall. apply andb_prop in Hall as [Hc _].
    unfold full_page in Hc. apply Z.eqb_eq in Hc.
    rewrite (items_of_reply _ _ _ Hrp), num_of_request in Hc.
    change (len []) with 0 in Hc. lia.
  - cbn in Hall. apply andb_prop in Hall as [Hc Hall].
    unfold full_page in Hc. apply Z.eqb_eq in Hc.
    rewrite (items_of_reply _ _ _ Hrp), num_of_request in Hc.
    rewrite len_app, len_map, Hc in IH.
    destruct (IH out Ho Hall) as [Hout Htrlen]; [lia|].
    split; [exact Hout|].
    rewrite len_cons, Htrlen.
    replace (max_total - (len rs + Z.min 10 (max_total - len rs)))
      with ((max_total - len rs) - Z.min 10 (max_total - len rs)) by lia.
    apply ceil10_step. lia.
Qed.

(** A run makes no more calls than the distance to [max_total]. *)
Lemma trace_count rs st tr o :
  trace rs st tr o ->
  len tr <= Z.max 0 (max_total - len rs).
Proof.
  induction 1 as [rs st Hge|rs st rp e Hlt Hrp|rs st rp Hlt Hrp
                  |rs st rp it its tr o Hlt Hrp Htr IH].
  - change (len []) with 0. lia.
  - rewrite len_cons. change (len []) with 0. lia.
  - rewrite len_cons. change (len []) with 0. lia.
  - rewrite len_app, len_map in IH. rewrite len_cons.
    rewrite len_cons in IH. pose proof (len_nonneg its). lia.
Qed.

(** Every call asks for at least one and at most ten items. *)
Lemma trace_num_range rs st tr o :
  trace rs st tr o ->
  Forall (fun c => 1 <= num_of c <= 10) tr.
Proof.
  induction 1 as [rs st Hge|rs st rp e Hlt Hrp|rs st rp Hlt Hrp
                  |rs st rp it its tr o Hlt Hrp Htr IH];
    repeat constructor; try exact IH; rewrite num_of_request; lia.
Qed.

(** Against an API that honours [num], no reply of a run is too long. *)
Lemma trace_honest f k rs st tr o :
  trace rs st tr o ->
  honours_num f ->
  answered_by f k tr ->
  forallb within_request tr = true.
Proof.
  intros Htr Hf. apply trace_num_range in Htr. revert k.
  induction Htr as [|[rq rp] tr [Hc _] Htr IH]; intros k; [done|].
  intros [Hrp Hans]. cbn in Hrp. subst rp. cbn [forallb].
  rewrite (IH _ Hans), andb_true_r.
  unfold within_request. apply Z.leb_le.
  apply Hf. exact Hc.
Qed.

(** Nothing happens once the list has reached [max_total]. *)
Lemma trace_idle rs st tr o :
  trace rs st tr o ->
  max_total <= len rs ->
  tr = [] /\ o = inr rs.
Proof. destruct 1; intros Hge; [done|lia..]. Qed.

(** Every call but the last delivers something. *)
Lemma trace_upper rs st tr o :
  trace rs st tr o ->
  forall out, o = inr out ->
  len tr <= len out - len rs + 1.
Proof.
  induction 1 as [rs st Hge|rs st rp e Hlt Hrp|rs st rp Hlt Hrp
                  |rs st rp it its tr o Hlt Hrp Htr IH]; intros out Ho.
  - injection Ho as <-. change (len []) with 0. lia.
  - discriminate.
  - injection Ho as <-. rewrite len_cons. change (len []) with 0. lia.
  - specialize (IH out Ho). rewrite len_app, len_map in IH.
    rewrite len_cons. rewrite len_cons in IH.
    pose proof (len_nonneg its). lia.
Qed.

End Gather.

(** ** Text primitives *)

Lemma join_cons sep p q rest :
  Text.join sep (p :: q :: rest) = p ++ sep ++ Text.join sep (q :: rest).
Proof. reflexivity. Qed.

(** A property of texts that concatenation preserves holds of a joined
    text as soon as it holds of the separator and of every part. *)
Lemma join_closed (P : Text -> Prop) sep parts :
  P [] ->
  (forall a b, P a -> P b -> P (a ++ b)) ->
  P sep ->
  Forall P parts ->
  P (Text.join sep parts).
Proof.
  intros Hnil Happ Hsep Hall.
  induction Hall as [|p parts Hp Hparts IH]; [exact Hnil|].
  destruct parts as [|q rest]; [exact Hp|].
  rewrite join_cons. auto.
Qed.

Lemma occurs_refl s : Text.occurs s s.
Proof. exists [], []. by rewrite app_nil_r. Qed.

Lemma occurs_app_l needle a b : Text.occurs needle a -> Text.occurs needle (a ++ b).
Proof.
  intros (pre & post & ->). exists pre, (post ++ b).
  by rewrite <- !app_assoc.
Qed.

Lemma occurs_app_r needle a b : Text.occurs needle b -> Text.occurs needle (a ++ b).
Proof.
  intros (pre & post & ->). exists (a ++ pre), post.
  by rewrite <- !app_assoc.
Qed.

Lemma occurs_trans a b c : Text.occurs a b -> Text.occurs b c -> Text.occurs a c.
Proof.
  intros (p1 & q1 & ->) (p2 & q2 & ->).
  exists (p2 ++ p1), (q1 ++ q2). by rewrite <- !app_assoc.
Qed.

(** Every line occurs in the joined text. *)
Lemma occurs_join sep parts i line :
  parts !! i = Some line -> Text.occurs line (Text.join sep parts).
Proof.
  revert i. induction parts as [|p parts IH]; intros i Hi; [discriminate|].
  destruct parts as [|q rest].
  - destruct i; [|discriminate]. injection Hi as <-. apply occurs_refl.
  - rewrite join_cons. destruct i as [|i].
    + injection Hi as <-. apply occurs_app_l, occurs_refl.
    + apply occurs_app_r, occurs_app_r. by apply (IH i).
Qed.

Lemma filter_join_newline (f : Text.char -> bool) parts :
  f Text.c_nl = false ->
  List.filter f (Text.join [Text.c_nl] parts)
  = concat (map (List.filter f) parts).
Proof.
  intros Hnl. induction parts as [|p parts IH]; [reflexivity|].
  destruct parts as [|q rest].
  - cbn. by rewrite app_nil_r.
  - rewrite join_cons, !List.filter_app, IH. cbn [List.filter].
    rewrite Hnl. reflexivity.
Qed.

(** *** Texts free of markup characters *)

Lemma no_markup_app a b :
  no_markup (a ++ b) = no_markup a && no_markup b.
Proof. apply forallb_app. Qed.

Lemma no_markup_digit n : is_markup (Text.digit (n mod 10)) = false.
Proof.
  assert (n mod 10 < 10)%N by (apply N.mod_lt; lia).
  generalize dependent (n mod 10)%N. intros d Hd.
  unfold is_markup, is_angle, Text.digit, Text.c_lt, Text.c_gt, Text.c_amp.
  repeat (apply orb_false_intro); apply N.eqb_neq; lia.
Qed.

Lemma no_markup_dec_aux fuel :
  forall n acc, no_markup acc = true -> no_markup (Text.dec_aux fuel n acc) = true.
Proof.
  induction fuel as [|fuel IH]; intros n acc Hacc; [exact Hacc|].
  cbn [Text.dec_aux].
  assert (Hacc' : no_markup (Text.digit (n mod 10) :: acc) = true).
  { cbn. by rewrite no_markup_digit. }
  destruct (n / 10 =? 0)%N; [exact Hacc'|by apply IH].
Qed.

Lemma no_markup_dec n : no_markup (Text.dec n) = true.
Proof. by apply no_markup_dec_aux. Qed.

Lemma no_markup_zfill w s : no_markup s = true -> no_markup (Text.zfill w s) = true.
Proof.
  intros Hs. unfold Text.zfill. rewrite no_markup_app, Hs, andb_true_r.
  induction (w - length s)%nat as [|k IH]; [reflexivity|exact IH].
Qed.

Lemma no_markup_tzname tz : no_markup (tzname tz) = true.
Proof.
  destruct tz as [off|]; [|reflexivity].
  unfold tzname.
  assert (Hgen : forall sign, no_markup sign = true ->
            no_markup (lit "UTC" ++ sign
              ++ Text.zfill 2 (Text.dec (Z.to_N (Z.abs off) / 60)) ++ lit ":"
              ++ Text.zfill 2 (Text.dec (Z.to_N (Z.abs off) mod 60))) = true).
  { intros sign Hsign.
    rewrite !no_markup_app, Hsign, !no_markup_zfill by apply no_markup_dec.
    reflexivity. }
  destruct off as [|p|p]; [reflexivity| |]; apply Hgen; reflexivity.
Qed.

Lemma no_markup_strftime_date dt : no_markup (strftime_date dt) = true.
Proof.
  unfold strftime_date.
  rewrite !no_markup_app, !no_markup_zfill by apply no_markup_dec.
  reflexivity.
Qed.

Lemma no_markup_strftime_minute_zone dt :
  no_markup (strftime_minute_zone dt) = true.
Proof.
  unfold strftime_minute_zone.
  rewrite !no_markup_app, no_markup_strftime_date, no_markup_tzname,
    !no_markup_zfill by apply no_markup_dec.
  reflexivity.
Qed.

Lemma no_markup_no_angle s : no_markup s = true -> no_angle s = true.
Proof.
  unfold no_markup, no_angle, is_markup.
  induction s as [|c s IH]; [done|]. cbn.
  intros [Hc Hs]%andb_prop. rewrite (IH Hs), andb_true_r.
  by destruct (is_angle c).
Qed.

Lemma no_angle_app a b : no_angle (a ++ b) = no_angle a && no_angle b.
Proof. apply forallb_app. Qed.

Lemma no_angle_filter s : no_angle s = true -> List.filter is_angle s = [].
Proof.
  induction s as [|c s IH]; [done|]. cbn.
  intros [Hc Hs]%andb_prop. destruct (is_angle c); [discriminate|auto].
Qed.

(** *** [html.escape] *)

Lemma replace_app old new a b :
  Text.replace old new (a ++ b)
  = Text.replace old new a ++ Text.replace old new b.
Proof. apply flat_map_app. Qed.

Lemma escape_app a b : escape (a ++ b) = escape a ++ escape b.
Proof. unfold escape. by rewrite !replace_app. Qed.

(** The five successive replacements act on each character separately. *)
Lemma escape_char c : escape [c] = esc_char c.
Proof.
  unfold esc_char, Text.c_amp, Text.c_lt, Text.c_gt, Text.c_quot, Text.c_apos.
  destruct (N.eqb_spec c 38) as [->|H1]; [reflexivity|].
  destruct (N.eqb_spec c 60) as [->|H2]; [reflexivity|].
  destruct (N.eqb_spec c 62) as [->|H3]; [reflexivity|].
  destruct (N.eqb_spec c 34) as [->|H4]; [reflexivity|].
  destruct (N.eqb_spec c 39) as [->|H5]; [reflexivity|].
  apply N.eqb_neq in H1, H2, H3, H4, H5.
  unfold escape, Text.replace,
    Text.c_amp, Text.c_lt, Text.c_gt, Text.c_quot, Text.c_apos.
  cbn [flat_map app]. rewrite H1. cbn [flat_map app]. rewrite H2.
  cbn [flat_map app]. rewrite H3. cbn [flat_map app]. rewrite H4.
  cbn [flat_map app]. rewrite H5. reflexivity.
Qed.

(** [html.escape] is the character-by-character substitution. *)
Lemma escape_flat_map s : escape s = flat_map esc_char s.
Proof.
  induction s as [|c s IH]; [reflexivity|].
  change (c :: s) with ([c] ++ s).
  rewrite escape_app, escape_char, IH. reflexivity.
Qed.

Lemma esc_char_cases c :
  esc_char c = lit "&amp;" \/ esc_char c = lit "&lt;" \/ esc_char c = lit "&gt;"
  \/ esc_char c = lit "&quot;" \/ esc_char c = lit "&#x27;"
  \/ (esc_char c = [c] /\ is_markup c = false).
Proof.
  unfold esc_char, is_markup, is_angle.
  destruct (c =? Text.c_amp)%N; [tauto|].
  destruct (c =? Text.c_lt)%N; [tauto|].
  destruct (c =? Text.c_gt)%N; [tauto|].
  destruct (c =? Text.c_quot)%N; [tauto|].
  destruct (c =? Text.c_apos)%N; [tauto|].
  right; right; right; right; right. done.
Qed.

Lemma escape_no_angle s : no_angle (escape s) = true.
Proof.
  rewrite escape_flat_map.
  induction s as [|c s IH]; [reflexivity|].
  cbn [flat_map]. rewrite no_angle_app, IH, andb_true_r.
  destruct (esc_char_cases c) as [->|[->|[->|[->|[->|[-> Hc]]]]]];
    try reflexivity.
  cbn. unfold is_markup in Hc. by destruct (is_angle c).
Qed.

(** *** Ampersands *)

Lemma starts_with_app p s b :
  starts_with p s = true -> starts_with p (s ++ b) = true.
Proof.
  revert s. induction p as [|a p IH]; intros s; [done|].
  destruct s as [|c s]; [done|]. cbn.
  intros [-> Hs]%andb_prop. by rewrite IH.
Qed.

Lemma existsb_impl {A} (f g : A -> bool) l :
  (forall x, f x = true -> g x = true) ->
  existsb f l = true -> existsb g l = true.
Proof.
  intros Hfg. induction l as [|x l IH]; [done|]. cbn.
  intros [Hx|Hl]%orb_prop.
  - by rewrite Hfg.
  - rewrite IH by done. apply orb_true_r.
Qed.

Lemma amp_escaped_cons c s :
  amp_escaped (c :: s)
  = (if (c =? Text.c_amp)%N
     then existsb (fun p => starts_with p s) references else true)
    && amp_escaped s.
Proof. reflexivity. Qed.

Lemma no_markup_cons c s :
  no_markup (c :: s) = negb (is_markup c) && no_markup s.
Proof. reflexivity. Qed.

Lemma amp_escaped_app a b :
  amp_escaped a = true -> amp_escaped b = true -> amp_escaped (a ++ b) = true.
Proof.
  intros Ha Hb. induction a as [|c a IH]; [exact Hb|].
  change ((c :: a) ++ b) with (c :: (a ++ b)).
  rewrite amp_escaped_cons in Ha |- *. apply andb_prop in Ha as [Hc Ha].
  rewrite (IH Ha), andb_true_r.
  destruct (c =? Text.c_amp)%N; [|done].
  revert Hc. apply existsb_impl. intros p. apply starts_with_app.
Qed.

Lemma no_markup_amp_escaped s : no_markup s = true -> amp_escaped s = true.
Proof.
  induction s as [|c s IH]; [done|].
  rewrite no_markup_cons, amp_escaped_cons.
  intros [Hc Hs]%andb_prop. rewrite (IH Hs), andb_true_r.
  unfold is_markup in Hc. destruct (c =? Text.c_amp)%N; [|done].
  by rewrite orb_true_r in Hc.
Qed.

Lemma escape_amp_escaped s : amp_escaped (escape s) = true.
Proof.
  rewrite escape_flat_map.
  induction s as [|c s IH]; [reflexivity|].
  cbn [flat_map]. apply amp_escaped_app; [|exact IH].
  destruct (esc_char_cases c) as [->|[->|[->|[->|[->|[-> Hc]]]]]];
    try reflexivity.
  apply no_markup_amp_escaped. rewrite no_markup_cons, Hc. reflexivity.
Qed.

(** *** What may follow a [<] *)

Lemma lt_followed_app next a b :
  lt_followed next a = true -> lt_followed next b = true ->
  lt_followed next (a ++ b) = true.
Proof.
  intros Ha Hb. induction a as [|c a IH]; [exact Hb|].
  cbn in Ha |- *. apply andb_prop in Ha as [Hc Ha].
  rewrite (IH Ha), andb_true_r.
  destruct (c =? Text.c_lt)%N; [|done].
  destruct a as [|d a]; [discriminate|exact Hc].
Qed.

Lemma no_angle_lt_followed next s :
  no_angle s = true -> lt_followed next s = true.
Proof.
  induction s as [|c s IH]; [done|]. cbn.
  intros [Hc Hs]%andb_prop. rewrite (IH Hs), andb_true_r.
  unfold is_angle in Hc. destruct (c =? Text.c_lt)%N; [discriminate|done].
Qed.

(** A text in which [<] is only followed by characters of [next] contains
    no tag that opens with another character. *)
Lemma lt_followed_excludes next d rest s :
  lt_followed next s = true ->
  existsb (N.eqb d) next = false ->
  ~ Text.occurs (Text.c_lt :: d :: rest) s.
Proof.
  intros Hs Hd (pre & post & ->).
  induction pre as [|c pre IH].
  - cbn in Hs. rewrite Hd in Hs. discriminate.
  - cbn [app lt_followed] in Hs. apply andb_prop in Hs as [_ Hs]. auto.
Qed.

(** ** The digest formatter *)

Lemma format_email_html_run results query w :
  format_email_html results query w
  = Ok (Text.join [Text.c_nl] (digest_lines (clock w IST) results query)) w.
Proof. reflexivity. Qed.

(** The lines of a digest with at least one result. *)
Lemma digest_lines_cons now r rs query :
  digest_lines now (r :: rs) query
  = (lit "<h2>Job search results: " ++ escape query ++ lit "</h2>")
    :: (lit "<p>Search run at " ++ strftime_minute_zone now ++ lit " (IST)</p>")
    :: lit "<ol>"
    :: map item_line (r :: rs)
    ++ [lit "</ol>";
        lit "<hr/><p>Automation generated - tweak the queries or sources in the script as needed.</p>"].
Proof.
  unfold digest_lines. cbn [app]. rewrite <- !app_assoc. reflexivity.
Qed.

Lemma digest_lines_nil now query :
  digest_lines now [] query
  = [lit "<h2>Job search results: " ++ escape query ++ lit "</h2>";
     lit "<p>Search run at " ++ strftime_minute_zone now ++ lit " (IST)</p>";
     lit "<p>No results found.</p>";
     lit "<hr/><p>Automation generated - tweak the queries or sources in the script as needed.</p>"].
Proof. reflexivity. Qed.

(** The line of the [i]-th result is line [3 + i] of the digest. *)
Lemma digest_lines_item now results query i r :
  results !! i = Some r ->
  digest_lines now results query !! (3 + i)%nat = Some (item_line r).
Proof.
  intros Hi. destruct results as [|r0 rs]; [discriminate|].
  rewrite digest_lines_cons. cbn [Nat.add lookup list_lookup].
  change (list_lookup i) with (lookup (M:=list Text) i).
  apply lookup_app_l_Some. rewrite list_lookup_fmap, Hi. reflexivity.
Qed.

(** *** Angle brackets *)

Lemma angles_escape s : List.filter is_angle (escape s) = [].
Proof. apply no_angle_filter, escape_no_angle. Qed.

(** The angle brackets of an item line are those of its template. *)
Lemma angles_item_line r :
  List.filter is_angle (item_line r) = List.filter is_angle (item_line blank).
Proof.
  unfold item_line. cbn zeta.
  rewrite !List.filter_app, !angles_escape. reflexivity.
Qed.

Lemma angles_heading query :
  List.filter is_angle
    (lit "<h2>Job search results: " ++ escape query ++ lit "</h2>")
  = List.filter is_angle
      (lit "<h2>Job search results: " ++ escape [] ++ lit "</h2>").
Proof. rewrite !List.filter_app, !angles_escape. reflexivity. Qed.

(** The angle brackets of a digest depend on the number of results only. *)
Lemma angles_digest now results query :
  List.filter is_angle (Text.join [Text.c_nl] (digest_lines now results query))
  = List.filter is_angle
      (Text.join [Text.c_nl]
         (digest_lines now (map (fun _ => blank) results) [])).
Proof.
  rewrite !filter_join_newline by reflexivity. f_equal.
  destruct results as [|r rs].
  - cbn [map]. rewrite !digest_lines_nil. cbn [map].
    rewrite angles_heading. reflexivity.
  - change (map (fun _ => blank) (r :: rs))
      with (blank :: map (fun _ : SearchResult => blank) rs).
    rewrite !digest_lines_cons, !map_cons, !map_app, !map_cons.
    rewrite angles_heading, (angles_item_line r). do 4 f_equal.
    f_equal. rewrite !map_map. apply map_ext. intros r'.
    apply angles_item_line.
Qed.

(** *** Ampersands *)

Lemma amp_escaped_item_line r : amp_escaped (item_line r) = true.
Proof.
  unfold item_line. cbn zeta.
  apply amp_escaped_app; [reflexivity|].
  apply amp_escaped_app; [reflexivity|].
  apply amp_escaped_app; [apply escape_amp_escaped|].
  apply amp_escaped_app; [reflexivity|].
  apply amp_escaped_app; [reflexivity|].
  apply amp_escaped_app; [apply escape_amp_escaped|].
  apply amp_escaped_app; [reflexivity|].
  apply amp_escaped_app; [apply escape_amp_escaped|reflexivity].
Qed.

Lemma amp_escaped_heading query :
  amp_escaped (lit "<h2>Job search results: " ++ escape query ++ lit "</h2>")
  = true.
Proof.
  apply amp_escaped_app; [reflexivity|].
  apply amp_escaped_app; [apply escape_amp_escaped|reflexivity].
Qed.

Lemma amp_escaped_stamp now :
  amp_escaped
    (lit "<p>Search run at " ++ strftime_minute_zone now ++ lit " (IST)</p>")
  = true.
Proof.
  apply amp_escaped_app; [reflexivity|].
  apply amp_escaped_app; [|reflexivity].
  apply no_markup_amp_escaped, no_markup_strftime_minute_zone.
Qed.

Lemma amp_escaped_digest now results query :
  amp_escaped (Text.join [Text.c_nl] (digest_lines now results query)) = true.
Proof.
  apply (join_closed (fun s => amp_escaped s = true));
    [reflexivity|apply amp_escaped_app|reflexivity|].
  destruct results as [|r rs].
  - rewrite digest_lines_nil.
    constructor; [apply amp_escaped_heading|].
    constructor; [apply amp_escaped_stamp|].
    repeat constructor.
  - rewrite digest_lines_cons.
    constructor; [apply amp_escaped_heading|].
    constructor; [apply amp_escaped_stamp|].
    constructor; [reflexivity|].
    apply Forall_app. split.
    + apply Forall_forall. intros l [r' [-> _]]%list_elem_of_fmap.
      apply amp_escaped_item_line.
    + repeat constructor.
Qed.

(** *** The digest of an empty result list *)

Lemma lt_followed_empty_digest now query :
  lt_followed tag_openers
    (Text.join [Text.c_nl] (digest_lines now [] query)) = true.
Proof.
  apply (join_closed (fun s => lt_followed tag_openers s = true));
    [reflexivity|apply lt_followed_app|reflexivity|].
  rewrite digest_lines_nil.
  repeat (constructor; [try reflexivity|]); [| |constructor].
  - apply lt_followed_app; [reflexivity|].
    apply lt_followed_app; [|reflexivity].
    apply no_angle_lt_followed, escape_no_angle.
  - apply lt_followed_app; [reflexivity|].
    apply lt_followed_app; [|reflexivity].
    apply no_angle_lt_followed, no_markup_no_angle,
      no_markup_strftime_minute_zone.
Qed.

(** ** The entry point *)

Lemma main_soft_abort cfg w :
  truthy (CSE_API_KEY cfg) && truthy (CSE_CX cfg) && truthy (EMAIL_USER cfg)
    && truthy (EMAIL_PASS cfg) && truthy (RECIPIENT_EMAIL cfg) = false ->
  main cfg w = Ok tt (log_print missing_notice w).
Proof. intros H. unfold main. rewrite H. reflexivity. Qed.

(** The mail session is a straight line of six commands. *)
Lemma send_email_smtp_fuelled sender password recipient subject html host port w :
  send_email_smtp sender password recipient subject html host port w
  <> OutOfFuel.
Proof.
  unfold send_email_smtp, bind, smtp.
  repeat (match goal with
          | |- context [if ?b then _ else _] => destruct b
          end; cbn [log_smtp smtp_log]);
    discriminate.
Qed.

(** [main] never exhausts the fuel of the loop model: it returns or it
    raises. *)
Lemma main_fuelled cfg w : main cfg w <> OutOfFuel.
Proof.
  unfold main. destruct (negb _); [discriminate|].
  unfold bind at 1. cbn [print].
  unfold bind at 1.
  pose proof (gather_results_fuelled (QUERY cfg) (the (CSE_API_KEY cfg))
                (the (CSE_CX cfg)) (MAX_RESULTS cfg)
                (log_print (lit "Gathering job results...") w)) as Hg.
  destruct (gather_results _ _ _ _ _) as [rs w1|e w1|];
    [|discriminate|contradiction].
  unfold bind at 1. cbn [print].
  unfold bind at 1. rewrite format_email_html_run.
  unfold bind at 1. cbn [datetime_now].
  unfold bind at 1. cbn [print].
  unfold bind at 1.
  match goal with
  | |- context [send_email_smtp ?a ?b ?c ?d ?e ?f ?g ?w] =>
      pose proof (send_email_smtp_fuelled a b c d e f g w) as Hs;
      destruct (send_email_smtp a b c d e f g w)
  end; [discriminate|discriminate|contradiction].
Qed.

(** Loading the module changes nothing in the world and copies the five
    required settings from the environment as they are. *)
Lemma module_init_settings py_int w cfg w' :
  module_init py_int w = Ok cfg w' ->
  w' = w
  /\ CSE_API_KEY cfg = environ w !! "CSE_API_KEY"%string
  /\ CSE_CX cfg = environ w !! "CSE_CX"%string
  /\ EMAIL_USER cfg = environ w !! "EMAIL_USER"%string
  /\ EMAIL_PASS cfg = environ w !! "EMAIL_PASS"%string
  /\ RECIPIENT_EMAIL cfg = environ w !! "RECIPIENT_EMAIL"%string.
Proof.
  unfold module_init, bind, getenv, ret, raise.
  destruct (py_int _); [|discriminate].
  intros [= <- <-]. cbn. tauto.
Qed.

(** A required setting that is not truthy makes [main] give up. *)
Lemma main_falsy_setting py_int w cfg w1 name :
  module_init py_int w = Ok cfg w1 ->
  name ∈ required_names ->
  truthy (environ w !! name) = false ->
  w1 = w /\ main cfg w = Ok tt (log_print missing_notice w).
Proof.
  intros Hinit Hname Hfalsy.
  destruct (module_init_settings _ _ _ _ Hinit)
    as (-> & Hk & Hc & Hu & Hp & Hr).
  split; [reflexivity|]. apply main_soft_abort.
  rewrite Hk, Hc, Hu, Hp, Hr.
  unfold required_names in Hname.
  rewrite !elem_of_cons, elem_of_nil in Hname.
  destruct Hname as [->|[->|[->|[->|[->|[]]]]]]; rewrite Hfalsy;
    rewrite ?andb_false_r; reflexivity.
Qed.

(** Removing a required variable does not disturb the loading of the
    module: [MAX_RESULTS] is read as before. *)
Lemma module_init_unsetenv py_int w cfg w1 name :
  module_init py_int w = Ok cfg w1 ->
  name ∈ required_names ->
  exists cfg0,
    module_init py_int (unsetenv name w) = Ok cfg0 (unsetenv name w).
Proof.
  intros Hinit Hname.
  assert (Hcap : environ (unsetenv name w) !! "MAX_RESULTS"%string
                 = environ w !! "MAX_RESULTS"%string).
  { unfold unsetenv; cbn. apply lookup_delete_ne.
    unfold required_names in Hname.
    rewrite !elem_of_cons, elem_of_nil in Hname.
    destruct Hname as [->|[->|[->|[->|[->|[]]]]]]; discriminate. }
  revert Hinit. unfold module_init, bind, getenv, ret, raise.
  rewrite Hcap. destruct (py_int _); [|discriminate].
  intros _. eexists. reflexivity.
Qed.

(** ** The search client: length, stopping, call count, termination *)

(** C1 (as stated) fails: with a negative maximum the loop is never
    entered and the empty list returned is longer than the maximum. *)
Lemma gather_results_negative_max :
  ~ length_within_max (lit "jobs") (lit "k") (lit "cx") (-1)
      (world_of ∅ api_plenty).
Proof.
  intros H. specialize (H [] (world_of ∅ api_plenty) eq_refl).
  vm_compute in H. by apply H.
Qed.

(** The list is also too long when a reply carries more items than the
    call asked for: the loop appends every item it receives. *)
Lemma gather_results_overlong_reply :
  ~ length_within_max (lit "jobs") (lit "k") (lit "cx") 3
      (world_of ∅ api_flood).
Proof.
  intros H.
  destruct (gather_results (lit "jobs") (lit "k") (lit "cx") 3
              (world_of ∅ api_flood)) as [rs w'| |] eqn:Hrun;
    [|vm_compute in Hrun; discriminate..].
  specialize (H rs w' Hrun).
  vm_compute in Hrun. injection Hrun as <- <-.
  vm_compute in H. by apply H.
Qed.

(** C1 (amended): when no reply of the run carries more items than its
    call requested, the list returned by [gather_results] has at most
    [max(max_total, 0)] entries: at most [max_total] for a maximum that is
    not negative, none otherwise. *)
Theorem gather_results_length_bound query api_key cx max_total w results w' :
  gather_results query api_key cx max_total w = Ok results w' ->
  forallb within_request (calls w w') = true ->
  len results <= Z.max max_total 0.
Proof.
  intros Hrun Hall. apply gather_results_ok in Hrun.
  apply (trace_bound _ _ _ _ _ _ _ _ Hrun results eq_refl Hall).
Qed.

(** Twenty-five results from an API that honours [num]. *)
Lemma gather_results_length_bound_witness :
  exists results w',
    gather_results (lit "jobs") (lit "k") (lit "cx") 25 (world_of ∅ api_plenty)
    = Ok results w'
    /\ len results <= Z.max 25 0.
Proof.
  eexists _, _. split; [vm_compute; reflexivity|].
  eapply (gather_results_length_bound (lit "jobs") (lit "k") (lit "cx") 25
            (world_of ∅ api_plenty));
    [vm_compute; reflexivity|vm_compute; reflexivity].
Defined.

(** In particular the bound holds against every API that honours [num]. *)
Corollary gather_results_honest_api query api_key cx max_total w results w' :
  honours_num (api w) ->
  gather_results query api_key cx max_total w = Ok results w' ->
  len results <= Z.max max_total 0.
Proof.
  intros Hapi Hrun.
  pose proof (gather_results_ok _ _ _ _ _ _ _ Hrun) as Htr.
  pose proof (gather_results_answered _ _ _ _ _ _ _ Hrun) as Hans.
  apply (trace_bound _ _ _ _ _ _ _ _ Htr results eq_refl).
  by eapply trace_honest.
Qed.

(** C4: in a run of [gather_results] that returns, a call that delivers
    zero items is the last call of the run, and the list returned is made
    of the items delivered by the calls before it, whatever the maximum. *)
Theorem gather_results_stops_on_empty_page
    query api_key cx max_total w results w' i c :
  gather_results query api_key cx max_total w = Ok results w' ->
  calls w w' !! i = Some c ->
  items_of c = [] ->
  length (calls w w') = S i
  /\ results = map entry_of (flat_map items_of (take i (calls w w'))).
Proof.
  intros Hrun Hi Hc. apply gather_results_ok in Hrun.
  pose proof (trace_break _ _ _ _ _ _ _ _ Hrun results eq_refl i c Hi Hc)
    as Hlast.
  split; [exact Hlast|].
  rewrite (trace_results _ _ _ _ _ _ _ _ Hrun results eq_refl). cbn [app].
  rewrite <- (take_drop i (calls w w')) at 1.
  rewrite (drop_S _ c i Hi), drop_ge by lia.
  rewrite flat_map_app. cbn [flat_map]. rewrite Hc, !app_nil_r.
  reflexivity.
Qed.

(** An API with three results in all: the second call comes back empty
    and is the last. *)
Lemma gather_results_stops_on_empty_page_witness :
  exists results w',
    gather_results (lit "jobs") (lit "k") (lit "cx") 10 (world_of ∅ api_three)
    = Ok results w'
    /\ length (calls (world_of ∅ api_three) w') = 2%nat
    /\ results
       = map entry_of
           (flat_map items_of (take 1 (calls (world_of ∅ api_three) w'))).
Proof.
  eexists _, _. split; [vm_compute; reflexivity|].
  eapply (gather_results_stops_on_empty_page (lit "jobs") (lit "k") (lit "cx")
            10 (world_of ∅ api_three));
    [vm_compute; reflexivity|vm_compute; reflexivity|vm_compute; reflexivity].
Defined.

(** C5 (as stated) fails: when the API has nothing to offer, zero results
    are collected with one call, not with [ceil(0/10) = 0] calls. *)
Lemma gather_results_dry_api_one_call :
  ~ calls_exactly_ceil (lit "jobs") (lit "k") (lit "cx") 10
      (world_of ∅ api_dry).
Proof.
  intros H.
  destruct (gather_results (lit "jobs") (lit "k") (lit "cx") 10
              (world_of ∅ api_dry)) as [rs w'| |] eqn:Hrun;
    [|vm_compute in Hrun; discriminate..].
  specialize (H rs w' Hrun).
  vm_compute in Hrun. injection Hrun as <- <-.
  vm_compute in H. specialize (H ltac:(discriminate)). discriminate.
Qed.

(** C5 (amended): in a run of [gather_results] that returns [N] results,
    every call requests [num = min(10, max_total - collected so far)] from
    offset [1 + collected so far]; the number of calls is at most [N + 1];
    it is at least [ceil(N/10)] when no reply carries more items than
    requested; and it is exactly [ceil(N/10)], with [N = max(max_total, 0)],
    when every reply carries exactly the number of items requested. *)
Theorem gather_results_call_count query api_key cx max_total w results w' :
  gather_results query api_key cx max_total w = Ok results w' ->
  (forall i c,
     calls w w' !! i = Some c ->
     let got := len (flat_map items_of (take i (calls w w'))) in
     num_of c = Z.min 10 (max_total - got) /\ start_of c = 1 + got)
  /\ len (calls w w') <= len results + 1
  /\ (forallb within_request (calls w w') = true ->
      ceil10 (len results) <= len (calls w w'))
  /\ (forallb full_page (calls w w') = true ->
      len results = Z.max max_total 0
      /\ len (calls w w') = ceil10 (len results)).
Proof.
  intros Hrun. apply gather_results_ok in Hrun.
  split; [|split; [|split]].
  - intros i c Hi.
    apply (trace_request _ _ _ _ _ _ _ _ Hrun i c Hi).
  - pose proof (trace_upper _ _ _ _ _ _ _ _ Hrun results eq_refl) as H.
    change (len []) with 0 in H. lia.
  - intros Hall.
    pose proof (trace_lower _ _ _ _ _ _ _ _ Hrun results eq_refl Hall) as H.
    change (len []) with 0 in H. unfold ceil10.
    Z.to_euclidean_division_equations. lia.
  - intros Hall.
    destruct (Z.le_gt_cases 0 max_total) as [Hmax|Hmax].
    + destruct (trace_full _ _ _ _ _ _ _ _ Hrun results eq_refl Hall Hmax)
        as [Hn Hc].
      rewrite Hn, Hc. change (len []) with 0.
      split; [lia|f_equal; lia].
    + assert (Hidle : max_total <= len (@nil SearchResult))
        by (change (len []) with 0; lia).
      destruct (trace_idle _ _ _ _ _ _ _ _ Hrun Hidle) as [-> [= ->]].
      change (len []) with 0. split; [lia|reflexivity].
Qed.

(** Full pages up to a cap of twenty-five: three calls. *)
Lemma gather_results_call_count_witness :
  exists results w',
    gather_results (lit "jobs") (lit "k") (lit "cx") 25 (world_of ∅ api_plenty)
    = Ok results w'
    /\ len results = 25
    /\ len (calls (world_of ∅ api_plenty) w') = ceil10 25.
Proof.
  destruct (gather_results (lit "jobs") (lit "k") (lit "cx") 25
              (world_of ∅ api_plenty)) as [rs w'| |] eqn:Hrun;
    [|vm_compute in Hrun; discriminate..].
  exists rs, w'. split; [reflexivity|].
  pose proof (gather_results_call_count _ _ _ _ _ _ _ Hrun)
    as (_ & _ & _ & Hfull).
  vm_compute in Hrun. injection Hrun as <- <-.
  apply Hfull. vm_compute. reflexivity.
Defined.

(** C9: [gather_results] terminates for every maximum and every API.  The
    run ends by a return or by an exception after at most [max(0,
    max_total)] calls, additional loop fuel does not change it, and a pass
    through the loop body that neither breaks nor raises makes the list
    strictly longer. *)
Theorem gather_results_terminates query api_key cx max_total w :
  match gather_results query api_key cx max_total w with
  | Ok _ w' | Raise _ w' => len (calls w w') <= Z.max 0 max_total
  | OutOfFuel => False
  end
  /\ (forall extra,
        gather_loop (gather_fuel max_total + extra) query api_key cx
          max_total [] 1 w
        = gather_results query api_key cx max_total w)
  /\ (forall rs st w0,
        match gather_body query api_key cx max_total rs st w0 with
        | Ok (Continue rs' _) _ => len rs < len rs'
        | Ok Break _ | Raise _ _ => True
        | OutOfFuel => False
        end).
Proof.
  repeat split.
  - destruct (gather_results_trace query api_key cx max_total w)
      as (tr & out & Htr & _ & ->).
    pose proof (trace_count _ _ _ _ _ _ _ _ Htr) as H.
    change (len []) with 0 in H.
    destruct out; cbn [finish]; rewrite calls_extend_http; lia.
  - intros extra. apply gather_loop_fuel.
    change (len []) with 0. unfold gather_fuel. lia.
  - intros rs st w0. rewrite gather_body_run.
    destruct (reply_outcome _) as [e|[|it its]]; [exact I..|].
    rewrite len_app, len_map, len_cons. pose proof (len_nonneg its). lia.
Qed.

(** ** The digest formatter: escaping, determinism, special cases *)

(** C3: in the document produced by [format_email_html] no [<], [>] or [&]
    of the query or of a title, link or snippet appears as such.  The
    angle brackets of the document are exactly those of the digest of as
    many blank results under an empty query; every ampersand opens one of
    the character references [&amp;], [&lt;], [&gt;], [&quot;], [&#x27;];
    and each text is present in its escaped form, character by
    character. *)
Theorem format_email_html_escapes results query w :
  exists html html0,
    format_email_html results query w = Ok html w
    /\ format_email_html (map (fun _ => blank) results) [] w = Ok html0 w
    /\ List.filter is_angle html = List.filter is_angle html0
    /\ amp_escaped html = true
    /\ Text.occurs (flat_map esc_char query) html
    /\ Forall (fun r =>
                 Text.occurs
                   (flat_map esc_char (py_or (title r) (lit "No title"))) html
                 /\ Text.occurs (flat_map esc_char (py_or (link r) [])) html
                 /\ Text.occurs
                      (flat_map esc_char (Text.strip (py_or (snippet r) [])))
                      html)
              results.
Proof.
  eexists _, _. split; [apply format_email_html_run|].
  split; [apply format_email_html_run|].
  split; [apply angles_digest|].
  split; [apply amp_escaped_digest|].
  split.
  - apply (occurs_trans _
             (lit "<h2>Job search results: " ++ escape query ++ lit "</h2>")).
    + rewrite <- escape_flat_map. apply occurs_app_r, occurs_app_l, occurs_refl.
    + apply (occurs_join _ _ 0). by destruct results.
  - apply Forall_lookup. intros i r Hi.
    pose proof (digest_lines_item (clock w IST) results query i r Hi) as Hline.
    apply (occurs_join [Text.c_nl]) in Hline.
    rewrite <- !escape_flat_map.
    repeat split; (eapply occurs_trans; [|exact Hline]); unfold item_line;
      cbn zeta.
    + do 5 apply occurs_app_r. apply occurs_app_l, occurs_refl.
    + do 2 apply occurs_app_r. apply occurs_app_l, occurs_refl.
    + do 7 apply occurs_app_r. apply occurs_app_l, occurs_refl.
Qed.

(** C6: [format_email_html] is deterministic.  Two runs on the same
    results and the same query, in worlds whose clocks read the same,
    return the same document, and neither changes its world, however much
    the two worlds differ otherwise. *)
Theorem format_email_html_deterministic results query w1 w2 :
  clock w1 IST = clock w2 IST ->
  exists html,
    format_email_html results query w1 = Ok html w1
    /\ format_email_html results query w2 = Ok html w2.
Proof.
  intros Hclock. eexists. split; [apply format_email_html_run|].
  rewrite format_email_html_run, Hclock. reflexivity.
Qed.

(** Two worlds that share nothing but the clock. *)
Lemma format_email_html_deterministic_witness :
  exists html,
    format_email_html sample_results (lit "q & a") (world_of ∅ api_plenty)
    = Ok html (world_of ∅ api_plenty)
    /\ format_email_html sample_results (lit "q & a") busy_world
       = Ok html busy_world.
Proof.
  apply (format_email_html_deterministic sample_results (lit "q & a")
           (world_of ∅ api_plenty) busy_world).
  reflexivity.
Defined.

(** C7: for an empty result list the document contains the notice
    [No results found.] and neither [<ol>] nor [<li>], for every query and
    every clock reading. *)
Theorem format_email_html_no_results query w :
  exists html,
    format_email_html [] query w = Ok html w
    /\ Text.occurs (lit "No results found.") html
    /\ ~ Text.occurs (lit "<ol>") html
    /\ ~ Text.occurs (lit "<li>") html.
Proof.
  eexists. split; [apply format_email_html_run|].
  pose proof (lt_followed_empty_digest (clock w IST) query) as Hlt.
  repeat split.
  - apply (occurs_trans _ (lit "<p>No results found.</p>")).
    + exists (lit "<p>"), (lit "</p>"). reflexivity.
    + by apply (occurs_join _ _ 2).
  - by apply (lt_followed_excludes tag_openers).
  - by apply (lt_followed_excludes tag_openers).
Qed.

(** C8: an entry whose title is missing (or empty) is rendered as a
    hyperlink whose text is exactly [No title]: line [3 + i] of the
    digest, which occurs in the document, is the list item with that text
    between the opening and the closing anchor tag. *)
Theorem format_email_html_missing_title results query w i r :
  results !! i = Some r ->
  title r = None \/ title r = Some [] ->
  let item :=
    lit "<li><a href=" ++ [Text.c_quot] ++ escape (py_or (link r) [])
      ++ [Text.c_quot] ++ lit ">" ++ lit "No title" ++ lit "</a>"
      ++ lit "<br/><small>" ++ escape (Text.strip (py_or (snippet r) []))
      ++ lit "</small></li>" in
  exists html,
    format_email_html results query w = Ok html w
    /\ digest_lines (clock w IST) results query !! (3 + i)%nat = Some item
    /\ Text.occurs item html.
Proof.
  intros Hi Htitle item.
  assert (Hitem : item_line r = item).
  { unfold item_line, item. cbn zeta.
    replace (py_or (title r) (lit "No title")) with (lit "No title")
      by (destruct Htitle as [-> | ->]; reflexivity).
    reflexivity. }
  pose proof (digest_lines_item (clock w IST) results query i r Hi) as Hline.
  rewrite Hitem in Hline.
  eexists. split; [apply format_email_html_run|].
  split; [exact Hline|].
  by apply (occurs_join _ _ (3 + i)).
Qed.

(** The second sample result has a link and no title. *)
Lemma format_email_html_missing_title_witness :
  exists html,
    format_email_html sample_results (lit "q") (world_of ∅ api_plenty)
    = Ok html (world_of ∅ api_plenty)
    /\ Text.occurs
         (lit "<li><a href=" ++ [Text.c_quot] ++ lit "http://x/?a=1&amp;b=2"
            ++ [Text.c_quot] ++ lit ">No title</a><br/><small></small></li>")
         html.
Proof.
  destruct (format_email_html_missing_title sample_results (lit "q")
              (world_of ∅ api_plenty) 1
              (mkResult None (Some (lit "http://x/?a=1&b=2")) None))
    as (html & Hrun & _ & Hocc);
    [reflexivity|left; reflexivity|].
  exists html. split; [exact Hrun|exact Hocc].
Defined.

(** ** The entry point: missing and empty settings *)

(** C2: when one of the five required settings is absent from the
    environment, [main] returns normally after printing the diagnostic and
    nothing else: the HTTP log and the SMTP log are left as they were. *)
Theorem main_missing_setting py_int w cfg w1 name :
  module_init py_int w = Ok cfg w1 ->
  name ∈ required_names ->
  environ w !! name = None ->
  exists w2,
    main cfg w1 = Ok tt w2
    /\ stdout w2 = stdout w ++ [missing_notice]
    /\ http_log w2 = http_log w
    /\ smtp_log w2 = smtp_log w.
Proof.
  intros Hinit Hname Habsent.
  destruct (main_falsy_setting _ _ _ _ _ Hinit Hname) as [-> Hmain];
    [by rewrite Habsent|].
  exists (log_print missing_notice w). rewrite Hmain. done.
Qed.

(** An environment without [EMAIL_PASS]. *)
Lemma main_missing_setting_witness :
  exists w2,
    main cfg_no_pass (world_of env_no_pass api_plenty) = Ok tt w2
    /\ stdout w2 = [missing_notice]
    /\ http_log w2 = []
    /\ smtp_log w2 = [].
Proof.
  apply (main_missing_setting sample_int (world_of env_no_pass api_plenty)
           cfg_no_pass (world_of env_no_pass api_plenty) "EMAIL_PASS"%string).
  - vm_compute. reflexivity.
  - unfold required_names. set_solver.
  - vm_compute. reflexivity.
Defined.

(** C10: a required setting that is present in the environment but empty
    is treated exactly like an absent one.  [main] returns normally after
    printing the diagnostic, the HTTP log and the SMTP log are left as
    they were, and the run in the world where the variable is removed
    from the environment ends in the same way. *)
Theorem main_empty_setting py_int w cfg w1 name :
  module_init py_int w = Ok cfg w1 ->
  name ∈ required_names ->
  environ w !! name = Some (lit "") ->
  exists w2 cfg0,
    main cfg w1 = Ok tt w2
    /\ stdout w2 = stdout w ++ [missing_notice]
    /\ http_log w2 = http_log w
    /\ smtp_log w2 = smtp_log w
    /\ module_init py_int (unsetenv name w) = Ok cfg0 (unsetenv name w)
    /\ main cfg0 (unsetenv name w) = Ok tt (unsetenv name w2).
Proof.
  intros Hinit Hname Hempty.
  destruct (module_init_unsetenv _ _ _ _ _ Hinit Hname) as [cfg0 Hinit0].
  destruct (main_falsy_setting _ _ _ _ _ Hinit Hname) as [-> Hmain];
    [by rewrite Hempty|].
  destruct (main_falsy_setting _ _ _ _ _ Hinit0 Hname) as [_ Hmain0].
  { unfold unsetenv; cbn. by rewrite lookup_delete_eq. }
  exists (log_print missing_notice w), cfg0.
  rewrite Hmain, Hmain0. done.
Qed.

(** An environment in which [EMAIL_PASS] is the empty string. *)
Lemma main_empty_setting_witness :
  exists w2 cfg0,
    main cfg_empty_pass (world_of env_empty_pass api_plenty) = Ok tt w2
    /\ stdout w2 = [missing_notice]
    /\ http_log w2 = []
    /\ smtp_log w2 = []
    /\ module_init sample_int
         (unsetenv "EMAIL_PASS" (world_of env_empty_pass api_plenty))
       = Ok cfg0 (unsetenv "EMAIL_PASS" (world_of env_empty_pass api_plenty))
    /\ main cfg0 (unsetenv "EMAIL_PASS" (world_of env_empty_pass api_plenty))
       = Ok tt (unsetenv "EMAIL_PASS" w2).
Proof.
  apply (main_empty_setting sample_int (world_of env_empty_pass api_plenty)
           cfg_empty_pass (world_of env_empty_pass api_plenty)
           "EMAIL_PASS"%string).
  - vm_compute. reflexivity.
  - unfold required_names. set_solver.
  - vm_compute. reflexivity.
Defined.

(** * Further properties *)

(** ** The search client *)

Section GatherMore.

Variables (query api_key cx : Text) (max_total : Z).

Local Abbreviation trace := (gather_trace query api_key cx max_total).
Local Abbreviation request := (request_for query api_key cx max_total).

(** A run that raises ends on the call that failed; every call before it
    delivered something. *)
Lemma trace_raise rs st tr o :
  trace rs st tr o ->
  forall e, o = inl e ->
  exists tr0 c,
    tr = tr0 ++ [c]
    /\ reply_outcome c.2 = inl e
    /\ Forall (fun c => exists it its, reply_outcome c.2 = inr (it :: its)) tr0.
Proof.
  induction 1 as [rs st Hge|rs st rp e' Hlt Hrp|rs st rp Hlt Hrp
                  |rs st rp it its tr o Hlt Hrp Htr IH]; intros e Ho.
  - discriminate.
  - injection Ho as ->. exists [], (request rs st, rp).
    split; [reflexivity|]. split; [exact Hrp|constructor].
  - discriminate.
  - destruct (IH e Ho) as (tr0 & c & -> & Hc & Hall).
    exists ((request rs st, rp) :: tr0), c.
    split; [reflexivity|]. split; [exact Hc|].
    constructor; [|exact Hall]. by exists it, its.
Qed.

(** In a run that returns no call failed. *)
Lemma trace_return rs st tr o :
  trace rs st tr o ->
  forall out, o = inr out ->
  Forall (fun c => exists items, reply_outcome c.2 = inr items) tr.
Proof.
  induction 1 as [rs st Hge|rs st rp e' Hlt Hrp|rs st rp Hlt Hrp
                  |rs st rp it its tr o Hlt Hrp Htr IH]; intros out Ho.
  - constructor.
  - discriminate.
  - constructor; [by exists []|constructor].
  - constructor; [by exists (it :: its)|by eapply IH].
Qed.

(** Every request is the fixed GET with a page size between one and ten
    and an offset that is at least the initial one. *)
Lemma trace_wellformed rs st tr o :
  trace rs st tr o ->
  Forall (fun c =>
            c.1 = mkRequest (lit "https://www.googleapis.com/customsearch/v1")
                    (mkParams api_key cx query (num_of c) (start_of c)) 20
            /\ 1 <= num_of c <= 10
            /\ st <= start_of c) tr.
Proof.
  induction 1 as [rs st Hge|rs st rp e' Hlt Hrp|rs st rp Hlt Hrp
                  |rs st rp it its tr o Hlt Hrp Htr IH].
  - constructor.
  - constructor; [|constructor].
    split; [reflexivity|]. rewrite num_of_request. unfold start_of; cbn. lia.
  - constructor; [|constructor].
    split; [reflexivity|]. rewrite num_of_request. unfold start_of; cbn. lia.
  - constructor.
    + split; [reflexivity|]. rewrite num_of_request. unfold start_of; cbn. lia.
    + eapply Forall_impl; [exact IH|].
      intros c (Hc & Hn & Hs). repeat split; try tauto.
      rewrite len_cons in Hs. pose proof (len_nonneg its). lia.
Qed.

(** A run from a state below [max_total] starts with a call. *)
Lemma trace_first rs st tr o :
  trace rs st tr o ->
  len rs < max_total ->
  exists rp tr', tr = (request rs st, rp) :: tr'.
Proof. destruct 1; intros Hlt; [lia|eauto..]. Qed.

End GatherMore.

(** X1: exceptions of the search propagate unchanged and nothing is
    swallowed.  A run of [gather_results] that raises [e] ends on a call
    whose reply was the error [e], all calls before it having delivered at
    least one item (these items are lost with the exception); in a run
    that returns, no call failed. *)
Theorem gather_results_error_propagation query api_key cx max_total w :
  match gather_results query api_key cx max_total w with
  | Ok _ w' =>
      Forall (fun c => exists items, reply_outcome c.2 = inr items)
        (calls w w')
  | Raise e w' =>
      exists tr0 c,
        calls w w' = tr0 ++ [c]
        /\ reply_outcome c.2 = inl e
        /\ Forall (fun c => exists it its, reply_outcome c.2 = inr (it :: its))
             tr0
  | OutOfFuel => False
  end.
Proof.
  destruct (gather_results_trace query api_key cx max_total w)
    as (tr & out & Htr & _ & ->).
  destruct out as [e|rs]; cbn [finish]; rewrite calls_extend_http.
  - by eapply trace_raise.
  - by eapply trace_return.
Qed.

(** X2: [gather_results] touches nothing but the HTTP log, which only
    grows: the environment, the console and the SMTP log are as before,
    whether the run returns or raises. *)
Theorem gather_results_frame query api_key cx max_total w :
  match gather_results query api_key cx max_total w with
  | Ok _ w' | Raise _ w' =>
      http_log w' = http_log w ++ calls w w'
      /\ smtp_log w' = smtp_log w
      /\ stdout w' = stdout w
      /\ environ w' = environ w
  | OutOfFuel => False
  end.
Proof.
  destruct (gather_results_trace query api_key cx max_total w)
    as (tr & out & _ & _ & ->).
  destruct out as [e|rs]; cbn [finish]; rewrite calls_extend_http; done.
Qed.

(** X3: nothing is filtered out and nothing is deduplicated.  The list
    returned holds one entry per item received, in the order of arrival. *)
Theorem gather_results_keeps_every_item
    query api_key cx max_total w results w' :
  gather_results query api_key cx max_total w = Ok results w' ->
  results = map entry_of (flat_map items_of (calls w w')).
Proof.
  intros Hrun. apply gather_results_ok in Hrun.
  apply (trace_results _ _ _ _ _ _ _ _ Hrun results eq_refl).
Qed.

(** Ten copies of one item remain ten entries. *)
Lemma gather_results_keeps_every_item_witness :
  exists results w',
    gather_results (lit "jobs") (lit "k") (lit "cx") 10 (world_of ∅ api_plenty)
    = Ok results w'
    /\ results = replicate 10 (entry_of sample_item).
Proof.
  destruct (gather_results (lit "jobs") (lit "k") (lit "cx") 10
              (world_of ∅ api_plenty)) as [rs w'| |] eqn:Hrun;
    [|vm_compute in Hrun; discriminate..].
  exists rs, w'. split; [reflexivity|].
  rewrite (gather_results_keeps_every_item _ _ _ _ _ _ _ Hrun).
  vm_compute in Hrun. injection Hrun as <- <-.
  vm_compute. reflexivity.
Defined.

(** X4: every request of a run is a GET to the fixed endpoint that carries
    the key, the engine identifier and the query it was given, a timeout
    of twenty seconds, a page size between one and ten, and an offset of
    at least one. *)
Theorem gather_results_requests query api_key cx max_total w :
  match gather_results query api_key cx max_total w with
  | Ok _ w' | Raise _ w' =>
      Forall (fun c =>
                c.1 = mkRequest
                        (lit "https://www.googleapis.com/customsearch/v1")
                        (mkParams api_key cx query (num_of c) (start_of c)) 20
                /\ 1 <= num_of c <= 10
                /\ 1 <= start_of c) (calls w w')
  | OutOfFuel => False
  end.
Proof.
  destruct (gather_results_trace query api_key cx max_total w)
    as (tr & out & Htr & _ & ->).
  apply trace_wellformed in Htr.
  destruct out as [e|rs]; cbn [finish]; rewrite calls_extend_http;
    exact Htr.
Qed.

(** X5: a maximum of zero or less costs no call and yields the empty list
    in an unchanged world; a positive maximum always costs a first call,
    for [min(10, max_total)] items from offset one. *)
Theorem gather_results_first_call query api_key cx max_total w :
  if max_total <=? 0
  then gather_results query api_key cx max_total w = Ok [] w
  else match gather_results query api_key cx max_total w with
       | Ok _ w' | Raise _ w' =>
           exists c tr,
             calls w w' = c :: tr
             /\ num_of c = Z.min 10 max_total
             /\ start_of c = 1
       | OutOfFuel => False
       end.
Proof.
  destruct (Z.leb_spec max_total 0) as [Hle|Hgt].
  - unfold gather_results, gather_fuel. cbn [gather_loop].
    change (len []) with 0.
    destruct (Z.ltb_spec 0 max_total); [lia|reflexivity].
  - destruct (gather_results_trace query api_key cx max_total w)
      as (tr & out & Htr & _ & ->).
    destruct (trace_first _ _ _ _ _ _ _ _ Htr) as (rp & tr' & ->).
    { change (len []) with 0. lia. }
    destruct out as [e|rs]; cbn [finish]; rewrite calls_extend_http;
      (eexists _, _; split; [reflexivity|]);
      rewrite num_of_request; change (len []) with 0;
      (split; [f_equal; lia|reflexivity]).
Qed.

(** X6: of an item only the keys [title], [link] and [snippet] are read.
    Setting or removing any other key does not change the entry, and a
    key that is missing gives an absent field. *)
Theorem entry_of_other_key (k : string) (v : Text) (it : Item) :
  k ∉ ["title"; "link"; "snippet"]%string ->
  entry_of (<[k := v]> it) = entry_of it
  /\ entry_of (delete k it) = entry_of it.
Proof.
  intros Hk. rewrite !not_elem_of_cons in Hk.
  destruct Hk as (Ht & Hl & Hs & _).
  unfold entry_of.
  rewrite !lookup_insert_ne, !lookup_delete_ne by done. done.
Qed.

Lemma entry_of_other_key_witness :
  entry_of (<["displayLink"%string := lit "jobs.example"]> sample_item)
  = entry_of sample_item
  /\ entry_of (delete "displayLink"%string sample_item) = entry_of sample_item.
Proof.
  apply (entry_of_other_key "displayLink" (lit "jobs.example") sample_item).
  repeat (apply not_elem_of_cons; split; [discriminate|]).
  apply not_elem_of_nil.
Defined.

(** ** The mail sender *)

Lemma extend_smtp_nil w : extend_smtp [] w = w.
Proof. destruct w; unfold extend_smtp; simpl. by rewrite app_nil_r. Qed.

Lemma smtp_calls_extend_smtp cs w : smtp_calls w (extend_smtp cs w) = cs.
Proof. unfold smtp_calls, extend_smtp; simpl. by rewrite drop_app_length. Qed.

Lemma bind_ext {A B} (m : M A) (k1 k2 : A -> M B) w :
  (forall a w', k1 a w' = k2 a w') -> bind m k1 w = bind m k2 w.
Proof. intros H. unfold bind. destruct (m w); auto. Qed.

Lemma bind_ret_unit (m : M unit) w : bind m (fun _ => ret tt) w = m w.
Proof. unfold bind, ret. by destruct (m w) as [[] w'|e w'|]. Qed.

(** [send_email_smtp] is the six commands of [session] in sequence. *)
Lemma send_email_smtp_all sender password recipient subject html host port w :
  send_email_smtp sender password recipient subject html host port w
  = smtp_all (session sender password recipient subject html host port) w.
Proof.
  unfold send_email_smtp, session, smtp_all.
  do 5 (apply bind_ext; intros _ ?).
  symmetry. apply bind_ret_unit.
Qed.

(** A sequence of commands runs up to the first one the relay refuses. *)
Lemma smtp_all_run cs :
  forall w,
    let n := accepted (relay w) (length (smtp_log w)) cs in
    smtp_all cs w
    = match cs !! n with
      | None => Ok tt (extend_smtp cs w)
      | Some c => Raise (SMTPException c) (extend_smtp (take (S n) cs) w)
      end.
Proof.
  induction cs as [|c cs IH]; intros w n.
  - cbn. by rewrite extend_smtp_nil.
  - subst n. cbn [smtp_all accepted]. unfold bind, smtp.
    destruct (relay w (length (smtp_log w)) c) eqn:Hc; [|reflexivity].
    rewrite IH. cbn [log_smtp relay smtp_log].
    rewrite length_app, Nat.add_1_r. cbn [lookup list_lookup take].
    change (list_lookup ?i ?l) with (l !! i).
    destruct (cs !! _); unfold extend_smtp, log_smtp; cbn;
      by rewrite <- app_assoc.
Qed.

(** The commands before the first refusal were accepted. *)
Lemma accepted_before f k cs i c :
  (i < accepted f k cs)%nat -> cs !! i = Some c -> f (k + i)%nat c = true.
Proof.
  revert k i. induction cs as [|c0 cs IH]; intros k i Hi Hc; [discriminate|].
  cbn [accepted] in Hi. destruct (f k c0) eqn:H0; [|lia].
  destruct i as [|i].
  - injection Hc as <-. by rewrite Nat.add_0_r.
  - cbn in Hc. rewrite Nat.add_succ_r, <- Nat.add_succ_l.
    apply (IH (S k) i); [lia|exact Hc].
Qed.


Lemma accepted_le f k cs : (accepted f k cs <= length cs)%nat.
Proof.
  revert k. induction cs as [|c0 cs IH]; intros k; [done|].
  cbn [accepted length]. destruct (f k c0); [|lia].
  specialize (IH (S k)). lia.
Qed.


(** X8: no message is submitted unless the relay has accepted the login:
    when the login is refused, [send_email_smtp] raises and none of the
    commands it issued is a submission. *)
Theorem send_email_smtp_login_gate
    sender password recipient subject html host port w :
  relay w (length (smtp_log w) + 3)%nat (Login sender password) = false ->
  exists e w',
    send_email_smtp sender password recipient subject html host port w
    = Raise e w'
    /\ Forall (fun c => is_sendmail c = false) (smtp_calls w w').
Proof.
  intros Hlogin. rewrite send_email_smtp_all, smtp_all_run.
  set (sess := session sender password recipient subject html host port).
  set (n := accepted (relay w) (length (smtp_log w)) sess).
  assert (Hn : (n < 4)%nat).
  { destruct (decide (n < 4)%nat) as [|Hge]; [done|]. exfalso.
    rewrite (accepted_before (relay w) (length (smtp_log w)) sess 3
               (Login sender password)) in Hlogin;
      [discriminate|fold n; lia|reflexivity]. }
  destruct (sess !! n) as [c|] eqn:Hc.
  - eexists _, _. split; [reflexivity|].
    rewrite smtp_calls_extend_smtp.
    destruct n as [|[|[|[|n]]]]; [repeat constructor..|lia].
  - apply lookup_ge_None in Hc. cbn [sess session length] in Hc. lia.
Qed.

(** A relay that refuses logins sees connect, EHLO, STARTTLS and the
    login, and nothing more. *)
Lemma send_email_smtp_login_gate_witness :
  exists e w',
    send_email_smtp (lit "me@example.org") (lit "wrong") (lit "you@example.org")
      (lit "subject") (lit "<p>body</p>") (lit "smtp.gmail.com") 587
      (world_with api_dry relay_no_login)
    = Raise e w'
    /\ Forall (fun c => is_sendmail c = false)
         (smtp_calls (world_with api_dry relay_no_login) w').
Proof.
  apply (send_email_smtp_login_gate (lit "me@example.org") (lit "wrong")
           (lit "you@example.org") (lit "subject") (lit "<p>body</p>")
           (lit "smtp.gmail.com") 587 (world_with api_dry relay_no_login)).
  reflexivity.
Defined.

(** ** One call of the search API *)


(** ** The entry point with complete settings *)

(** What [main] does once the settings have passed the test. *)
Lemma main_run cfg w :
  configured cfg = true ->
  main cfg w
  = match gather_results (QUERY cfg) (the (CSE_API_KEY cfg))
            (the (CSE_CX cfg)) (MAX_RESULTS cfg)
            (log_print (lit "Gathering job results...") w) with
    | Ok rs w1 =>
        match smtp_all (main_session cfg w1 rs)
                (log_print (lit "Sending email...")
                   (log_print (found_line (length rs)) w1)) with
        | Ok _ w2 => Ok tt (log_print (lit "Email sent.") w2)
        | Raise e w2 => Raise e w2
        | OutOfFuel => OutOfFuel
        end
    | Raise e w1 => Raise e w1
    | OutOfFuel => OutOfFuel
    end.
Proof.
  intros Hcfg. unfold main. fold (configured cfg). rewrite Hcfg.
  cbn [negb]. unfold bind at 1. cbn [print].
  unfold bind at 1.
  destruct (gather_results _ _ _ _ _) as [rs w1|e w1|]; [|reflexivity..].
  unfold bind at 1. cbn [print].
  unfold bind at 1. rewrite format_email_html_run.
  unfold bind at 1. cbn [datetime_now].
  unfold bind at 1. cbn [print].
  unfold bind at 1. rewrite send_email_smtp_all.
  reflexivity.
Qed.

(** X10: when [main], run with complete settings, returns, it has printed
    its four progress lines and handed exactly one message to the relay:
    a complete session to [smtp.gmail.com:587] whose submission goes from
    [EMAIL_USER] to [RECIPIENT_EMAIL] alone and carries as its only part
    the digest of every item the search delivered (possibly none), under
    the subject composed of the query and the local date. *)
Theorem main_success cfg w w' :
  configured cfg = true ->
  main cfg w = Ok tt w' ->
  let rs := map entry_of (flat_map items_of (calls w w')) in
  stdout w'
  = stdout w ++ [lit "Gathering job results..."; found_line (length rs);
                 lit "Sending email..."; lit "Email sent."]
  /\ smtp_calls w w' = main_session cfg w rs.
Proof.
  intros Hcfg Hrun rs. rewrite (main_run _ _ Hcfg) in Hrun.
  destruct (gather_results_trace (QUERY cfg) (the (CSE_API_KEY cfg))
              (the (CSE_CX cfg)) (MAX_RESULTS cfg)
              (log_print (lit "Gathering job results...") w))
    as (tr & out & Htr & _ & Hg).
  rewrite Hg in Hrun. clear Hg.
  destruct out as [e|rs0]; cbn [finish] in Hrun; [discriminate|].
  rewrite smtp_all_run in Hrun.
  destruct (_ !! _) as [c|] in Hrun; [discriminate|].
  injection Hrun as <-.
  assert (Hcalls : rs = rs0).
  { subst rs. unfold calls. cbn [http_log log_print extend_smtp extend_http].
    rewrite drop_app_length.
    symmetry. apply (trace_results _ _ _ _ _ _ _ _ Htr rs0 eq_refl). }
  rewrite Hcalls. split.
  - cbn [stdout log_print extend_smtp extend_http].
    rewrite <- !app_assoc. reflexivity.
  - unfold smtp_calls. cbn [smtp_log log_print extend_smtp extend_http].
    rewrite drop_app_length. reflexivity.
Qed.

(** A cap of three against an API with plenty of results and a relay that
    accepts everything. *)
Lemma main_success_witness :
  exists w',
    main cfg_full (world_of ∅ api_plenty) = Ok tt w'
    /\ length (smtp_calls (world_of ∅ api_plenty) w') = 6%nat
    /\ stdout w'
       = [lit "Gathering job results..."; lit "Found 3 results";
          lit "Sending email..."; lit "Email sent."].
Proof.
  destruct (main cfg_full (world_of ∅ api_plenty)) as [[] w'| |] eqn:Hrun;
    [|vm_compute in Hrun; discriminate..].
  exists w'. split; [reflexivity|].
  destruct (main_success cfg_full (world_of ∅ api_plenty) w' eq_refl Hrun)
    as [Hout Hsess].
  rewrite Hout, Hsess.
  vm_compute in Hrun. injection Hrun as <-.
  split; vm_compute; reflexivity.
Defined.



(** With complete settings the first thing [main] prints is that it is
    gathering. *)
Lemma main_starts_gathering cfg w :
  configured cfg = true ->
  match main cfg w with
  | Ok _ w' | Raise _ w' =>
      exists rest,
        stdout w' = stdout w ++ lit "Gathering job results..." :: rest
  | OutOfFuel => False
  end.
Proof.
  intros Hcfg. rewrite (main_run _ _ Hcfg).
  destruct (gather_results_trace (QUERY cfg) (the (CSE_API_KEY cfg))
              (the (CSE_CX cfg)) (MAX_RESULTS cfg)
              (log_print (lit "Gathering job results...") w))
    as (tr & out & _ & _ & ->).
  destruct out as [e|rs]; cbn [finish].
  - exists []. reflexivity.
  - rewrite smtp_all_run. destruct (_ !! _) as [c|];
      cbn [stdout log_print extend_smtp extend_http];
      rewrite <- !app_assoc; eexists; reflexivity.
Qed.

(** X12: the notice about missing settings is the outcome of [main]
    exactly when one of the five required settings is missing or empty;
    with complete settings [main] never ends that way. *)
Theorem main_abort_iff cfg w :
  main cfg w = Ok tt (log_print missing_notice w) <-> configured cfg = false.
Proof.
  split.
  - intros Hrun. destruct (configured cfg) eqn:Hcfg; [|reflexivity].
    pose proof (main_starts_gathering cfg w Hcfg) as H.
    rewrite Hrun in H. destruct H as (rest & H).
    cbn [stdout log_print] in H. apply app_inv_head in H.
    injection H as H _. vm_compute in H. discriminate.
  - apply main_soft_abort.
Qed.

(** ** Loading the module *)

(** X13: a [MAX_RESULTS] that is not an integer literal stops the script
    while the module is loaded: [ValueError] is raised, [main] is never
    called, and nothing is printed, not even the notice about missing
    settings. *)
Theorem script_bad_max_results py_int w :
  py_int (default (lit "10") (environ w !! "MAX_RESULTS"%string)) = None ->
  script py_int w = Raise ValueError w.
Proof.
  intros Hbad. unfold script, bind at 1.
  unfold module_init, bind, getenv. cbn beta iota.
  rewrite Hbad. reflexivity.
Qed.

Lemma script_bad_max_results_witness :
  script sample_int (world_of env_bad_cap api_plenty)
  = Raise ValueError (world_of env_bad_cap api_plenty).
Proof.
  apply (script_bad_max_results sample_int (world_of env_bad_cap api_plenty)).
  vm_compute. reflexivity.
Defined.

(** X14: the two optional settings.  [QUERY] is the value of [JOB_QUERY]
    whenever the variable is set, even to the empty string, and the
    default only when it is unset; [MAX_RESULTS] is what [int] makes of
    the variable, or of ["10"] when it is unset. *)
Theorem module_init_optional py_int w cfg w1 :
  module_init py_int w = Ok cfg w1 ->
  match environ w !! "JOB_QUERY"%string with
  | Some v => QUERY cfg = v
  | None => QUERY cfg = lit "entry level cyber security jobs startups"
  end
  /\ match environ w !! "MAX_RESULTS"%string with
     | Some v => py_int v = Some (MAX_RESULTS cfg)
     | None => py_int (lit "10") = Some (MAX_RESULTS cfg)
     end.
Proof.
  unfold module_init, bind, getenv, ret, raise.
  destruct (py_int _) as [n|] eqn:Hn; [|discriminate].
  intros [= <- <-]. cbn [QUERY MAX_RESULTS].
  split.
  - by destruct (environ w !! "JOB_QUERY"%string).
  - by destruct (environ w !! "MAX_RESULTS"%string).
Qed.

(** A [JOB_QUERY] set to the empty string gives the empty query. *)
Lemma module_init_optional_witness :
  exists cfg,
    module_init sample_int (world_of env_empty_query api_plenty)
    = Ok cfg (world_of env_empty_query api_plenty)
    /\ QUERY cfg = lit ""
    /\ MAX_RESULTS cfg = 10.
Proof.
  destruct (module_init sample_int (world_of env_empty_query api_plenty))
    as [cfg w1| |] eqn:Hinit; [|vm_compute in Hinit; discriminate..].
  destruct (module_init_optional _ _ _ _ Hinit) as [Hq Hcap].
  destruct (module_init_settings _ _ _ _ Hinit) as [-> _].
  exists cfg. split; [reflexivity|].
  split; [exact Hq|]. vm_compute in Hcap. by injection Hcap.
Defined.

(** ** Escaping *)

Lemma is_special_esc_char c : is_special c = false -> esc_char c = [c].
Proof.
  unfold is_special, is_markup, is_angle, esc_char.
  destruct (c =? Text.c_amp)%N; [by rewrite !orb_true_r|].
  destruct (c =? Text.c_lt)%N; [done|].
  destruct (c =? Text.c_gt)%N; [done|].
  destruct (c =? Text.c_quot)%N; [done|].
  destruct (c =? Text.c_apos)%N; [by rewrite !orb_true_r|done].
Qed.

Lemma is_special_esc_char_length c :
  is_special c = true -> (1 < length (esc_char c))%nat.
Proof.
  unfold is_special, is_markup, is_angle, esc_char.
  destruct (c =? Text.c_amp)%N; [cbn; lia|].
  destruct (c =? Text.c_lt)%N; [cbn; lia|].
  destruct (c =? Text.c_gt)%N; [cbn; lia|].
  destruct (c =? Text.c_quot)%N; [cbn; lia|].
  destruct (c =? Text.c_apos)%N; [cbn; lia|discriminate].
Qed.

Lemma escape_length_cons c s :
  length (flat_map esc_char (c :: s))
  = (length (esc_char c) + length (flat_map esc_char s))%nat.
Proof. cbn [flat_map]. apply length_app. Qed.

Lemma escape_length_le s : (length s <= length (flat_map esc_char s))%nat.
Proof.
  induction s as [|c s IH]; [done|].
  rewrite escape_length_cons. cbn [length].
  destruct (is_special c) eqn:Hc.
  - apply is_special_esc_char_length in Hc. lia.
  - rewrite (is_special_esc_char _ Hc). cbn [length]. lia.
Qed.

Lemma escape_plain_id s :
  forallb (fun c => negb (is_special c)) s = true -> flat_map esc_char s = s.
Proof.
  induction s as [|c s IH]; [done|]. cbn [forallb flat_map].
  intros [Hc Hs]%andb_prop. apply negb_true_iff in Hc.
  rewrite (is_special_esc_char _ Hc), (IH Hs). reflexivity.
Qed.

Lemma escape_same_length s :
  length (flat_map esc_char s) = length s ->
  forallb (fun c => negb (is_special c)) s = true.
Proof.
  induction s as [|c s IH]; [done|].
  rewrite escape_length_cons. cbn [length forallb]. intros Hl.
  pose proof (escape_length_le s) as Hs.
  destruct (is_special c) eqn:Hc.
  - apply is_special_esc_char_length in Hc. lia.
  - rewrite (is_special_esc_char _ Hc) in Hl. cbn [length] in Hl.
    cbn [negb andb]. apply IH. lia.
Qed.

(** X15: [html.escape] never shortens a text, and it leaves a text as it is
    exactly when the text holds none of the characters [&], [<], [>],
    double quote and apostrophe; the same length already means nothing
    was rewritten. *)
Theorem escape_plain s :
  (length s <= length (escape s))%nat
  /\ (escape s = s <-> forallb (fun c => negb (is_special c)) s = true)
  /\ (length (escape s) = length s -> escape s = s).
Proof.
  rewrite escape_flat_map.
  split; [apply escape_length_le|]. split; [split|].
  - intros Heq. apply escape_same_length. by rewrite Heq.
  - apply escape_plain_id.
  - intros Hl. by apply escape_plain_id, escape_same_length.
Qed.

Lemma unescape_aux_escape s :
  forall fuel,
    (length (flat_map esc_char s) <= fuel)%nat ->
    unescape_aux fuel (flat_map esc_char s) = s.
Proof.
  induction s as [|c s IH]; intros fuel Hfuel.
  - by destruct fuel.
  - rewrite escape_length_cons in Hfuel. cbn [flat_map].
    assert (Hstep : forall f, (length (flat_map esc_char s) <= f)%nat ->
              unescape_aux (S f) (esc_char c ++ flat_map esc_char s)
              = c :: s).
    { intros f Hf.
      unfold esc_char, Text.c_amp, Text.c_lt, Text.c_gt, Text.c_quot,
        Text.c_apos.
      destruct (N.eqb_spec c 38) as [->|H1];
        [cbn; by rewrite drop_0, IH|].
      destruct (N.eqb_spec c 60) as [->|H2];
        [cbn; by rewrite drop_0, IH|].
      destruct (N.eqb_spec c 62) as [->|H3];
        [cbn; by rewrite drop_0, IH|].
      destruct (N.eqb_spec c 34) as [->|H4];
        [cbn; by rewrite drop_0, IH|].
      destruct (N.eqb_spec c 39) as [->|H5];
        [cbn; by rewrite drop_0, IH|].
      cbn [app unescape_aux]. unfold Text.c_amp.
      apply N.eqb_neq in H1. rewrite H1. by rewrite IH. }
    destruct (is_special c) eqn:Hc.
    + apply is_special_esc_char_length in Hc.
      destruct fuel as [|f]; [lia|]. apply Hstep. lia.
    + rewrite (is_special_esc_char _ Hc) in Hfuel |- *.
      cbn [length] in Hfuel.
      destruct fuel as [|f]; [lia|].
      rewrite <- (is_special_esc_char _ Hc). apply Hstep. lia.
Qed.

(** X16: escaping loses nothing: reading the five character references
    back returns the original text, so two different texts are never
    rendered alike. *)
Theorem escape_roundtrip s t :
  unescape (escape s) = s
  /\ (escape s = escape t -> s = t).
Proof.
  assert (Hrt : forall u, unescape (escape u) = u).
  { intros u. unfold unescape. rewrite escape_flat_map.
    by apply unescape_aux_escape. }
  split; [apply Hrt|].
  intros Heq. rewrite <- (Hrt s), <- (Hrt t). by rewrite Heq.
Qed.

(** ** Characters of the time stamp *)

Section Stamp.

(** A set of characters that holds no digit and none of the punctuation
    and letters of a time stamp. *)
Variable bad : Text.char -> bool.
Hypothesis bad_digit : forall d, (d < 10)%N -> bad (Text.digit d) = false.
Hypothesis bad_stamp :
  forallb (fun c => negb (bad c)) (lit "UTC+-: ") = true.

Local Abbreviation clean := (forallb (fun c => negb (bad c))).

Lemma clean_dec_aux fuel :
  forall n acc, clean acc = true -> clean (Text.dec_aux fuel n acc) = true.
Proof.
  induction fuel as [|fuel IH]; intros n acc Hacc; [exact Hacc|].
  cbn [Text.dec_aux].
  assert (Hacc' : clean (Text.digit (n mod 10) :: acc) = true).
  { cbn [forallb]. rewrite bad_digit, Hacc; [done|]. apply N.mod_lt. lia. }
  destruct (n / 10 =? 0)%N; [exact Hacc'|by apply IH].
Qed.

Lemma clean_zfill_dec w n : clean (Text.zfill w (Text.dec n)) = true.
Proof.
  unfold Text.zfill. rewrite forallb_app. apply andb_true_intro. split.
  - induction (w - length (Text.dec n))%nat as [|k IH]; [done|].
    cbn [replicate forallb]. rewrite bad_digit, IH; [done|lia].
  - by apply clean_dec_aux.
Qed.

Lemma clean_lit p :
  forallb (fun c => existsb (N.eqb c) (lit "UTC+-: ")) p = true ->
  clean p = true.
Proof.
  intros Hp. apply forallb_forall. intros c Hc.
  rewrite forallb_forall in Hp. specialize (Hp c Hc).
  apply existsb_exists in Hp as (d & Hd & ->%N.eqb_eq).
  rewrite forallb_forall in bad_stamp. by apply bad_stamp.
Qed.

Lemma clean_strftime_date dt : clean (strftime_date dt) = true.
Proof.
  unfold strftime_date.
  rewrite !forallb_app, !clean_zfill_dec, !(clean_lit (lit "-")) by done.
  reflexivity.
Qed.

Lemma clean_tzname tz : clean (tzname tz) = true.
Proof.
  destruct tz as [off|]; [|reflexivity]. unfold tzname.
  assert (Hgen : forall sign, clean sign = true ->
            clean (lit "UTC" ++ sign
              ++ Text.zfill 2 (Text.dec (Z.to_N (Z.abs off) / 60)) ++ lit ":"
              ++ Text.zfill 2 (Text.dec (Z.to_N (Z.abs off) mod 60))) = true).
  { intros sign Hsign.
    rewrite !forallb_app, Hsign, !clean_zfill_dec,
      (clean_lit (lit "UTC")), (clean_lit (lit ":")) by done.
    reflexivity. }
  destruct off as [|p|p]; [by apply clean_lit| |]; apply Hgen;
    by apply clean_lit.
Qed.

Lemma clean_strftime_minute_zone dt : clean (strftime_minute_zone dt) = true.
Proof.
  unfold strftime_minute_zone.
  rewrite !forallb_app, clean_strftime_date, clean_tzname, !clean_zfill_dec,
    (clean_lit (lit " ")), (clean_lit (lit ":")) by done.
  reflexivity.
Qed.

End Stamp.

(** ** Quotes *)

Lemma is_quote_digit d : (d < 10)%N -> is_quote (Text.digit d) = false.
Proof.
  intros Hd. unfold is_quote, Text.digit, Text.c_quot, Text.c_apos.
  apply orb_false_intro; apply N.eqb_neq; lia.
Qed.

Lemma quotes_stamp dt : List.filter is_quote (strftime_minute_zone dt) = [].
Proof.
  pose proof (clean_strftime_minute_zone is_quote is_quote_digit eq_refl dt)
    as H.
  induction (strftime_minute_zone dt) as [|c s IH]; [done|].
  cbn [forallb] in H. apply andb_prop in H as [Hc Hs].
  cbn [List.filter]. apply negb_true_iff in Hc. rewrite Hc. auto.
Qed.

Lemma quotes_esc_char c : List.filter is_quote (esc_char c) = [].
Proof.
  unfold esc_char.
  destruct (c =? Text.c_amp)%N; [reflexivity|].
  destruct (c =? Text.c_lt)%N; [reflexivity|].
  destruct (c =? Text.c_gt)%N; [reflexivity|].
  destruct (c =? Text.c_quot)%N eqn:Hq; [reflexivity|].
  destruct (c =? Text.c_apos)%N eqn:Ha; [reflexivity|].
  cbn [List.filter]. unfold is_quote. by rewrite Hq, Ha.
Qed.

Lemma quotes_escape s : List.filter is_quote (escape s) = [].
Proof.
  rewrite escape_flat_map. induction s as [|c s IH]; [done|].
  cbn [flat_map]. by rewrite List.filter_app, quotes_esc_char, IH.
Qed.

Lemma flat_map_map {A B C} (f : A -> B) (g : B -> list C) l :
  flat_map g (map f l) = flat_map (fun x => g (f x)) l.
Proof. induction l as [|x l IH]; [done|]. cbn. by rewrite IH. Qed.

Lemma quotes_item_line r :
  List.filter is_quote (item_line r) = [Text.c_quot; Text.c_quot].
Proof.
  unfold item_line. cbn zeta.
  rewrite !List.filter_app, !quotes_escape. reflexivity.
Qed.

(** X17: the only quote characters of the document are the two double
    quotes around each [href] value.  No double quote and no apostrophe
    of a link, a title, a snippet or the query reaches the document as
    such, so a link cannot end its attribute early. *)
Theorem format_email_html_quotes results query w :
  exists html,
    format_email_html results query w = Ok html w
    /\ List.filter is_quote html
       = flat_map (fun _ => [Text.c_quot; Text.c_quot]) results.
Proof.
  eexists. split; [apply format_email_html_run|].
  rewrite filter_join_newline by reflexivity.
  rewrite <- flat_map_concat_map.
  destruct results as [|r rs].
  - rewrite digest_lines_nil. cbn [flat_map].
    rewrite !List.filter_app, quotes_escape, quotes_stamp. reflexivity.
  - rewrite digest_lines_cons. cbn [flat_map].
    rewrite flat_map_app, flat_map_map.
    rewrite !List.filter_app, quotes_escape, quotes_stamp.
    rewrite (flat_map_ext _ _ quotes_item_line).
    set (items := flat_map _ (r :: rs)).
    replace (flat_map (List.filter is_quote) (_ :: _ :: nil))
      with (@nil Text.char) by reflexivity.
    repeat match goal with
           | |- context [List.filter is_quote (lit ?s)] =>
               change (List.filter is_quote (lit s)) with (@nil Text.char)
           end.
    cbn [app]. apply app_nil_r.
Qed.

(** ** Missing, empty and blank fields *)

Lemma lstrip_spaces s : forallb Text.is_space s = true -> Text.lstrip s = [].
Proof.
  induction s as [|c s IH]; [done|]. cbn [forallb Text.lstrip].
  intros [-> Hs]%andb_prop. auto.
Qed.

Lemma strip_spaces s : forallb Text.is_space s = true -> Text.strip s = [].
Proof. intros Hs. unfold Text.strip. by rewrite lstrip_spaces. Qed.

(** X18: a link that is missing or empty is rendered as an empty [href], and
    a snippet that is missing, empty or made of whitespace only as an
    empty [<small>] element. *)
Theorem item_line_blank_fields r :
  link r = None \/ link r = Some [] ->
  snippet r = None
  \/ (exists s, snippet r = Some s /\ forallb Text.is_space s = true) ->
  item_line r
  = lit "<li><a href=" ++ [Text.c_quot; Text.c_quot] ++ lit ">"
      ++ escape (py_or (title r) (lit "No title"))
      ++ lit "</a><br/><small></small></li>".
Proof.
  intros Hlink Hsnip. unfold item_line. cbn zeta.
  replace (py_or (link r) []) with (@nil Text.char)
    by (destruct Hlink as [-> | ->]; reflexivity).
  replace (Text.strip (py_or (snippet r) [])) with (@nil Text.char).
  - reflexivity.
  - destruct Hsnip as [->|(s & -> & Hs)]; [reflexivity|].
    symmetry. destruct s as [|c s]; [reflexivity|].
    cbn [py_or]. by apply strip_spaces.
Qed.

Lemma item_line_blank_fields_witness :
  item_line (mkResult (Some (lit "A&B")) (Some []) (Some (lit "  ")))
  = lit "<li><a href=" ++ [Text.c_quot; Text.c_quot] ++ lit ">"
      ++ lit "A&amp;B" ++ lit "</a><br/><small></small></li>".
Proof.
  apply (item_line_blank_fields
           (mkResult (Some (lit "A&B")) (Some []) (Some (lit "  ")))).
  - right. reflexivity.
  - right. exists (lit "  "). split; reflexivity.
Defined.

(** ** Trimming *)

Lemma lstrip_split s :
  exists pre,
    s = pre ++ Text.lstrip s
    /\ forallb Text.is_space pre = true
    /\ match Text.lstrip s with
       | c :: _ => Text.is_space c = false
       | [] => True
       end.
Proof.
  induction s as [|c s (pre & Hs & Hpre & Hhd)]; [by exists []|].
  cbn [Text.lstrip]. destruct (Text.is_space c) eqn:Hc.
  - exists (c :: pre). cbn [app forallb]. rewrite Hc, Hpre.
    split; [by f_equal|]. done.
  - exists []. done.
Qed.

Lemma rstrip_split t :
  exists post,
    t = Text.rstrip t ++ post
    /\ forallb Text.is_space post = true
    /\ match rev (Text.rstrip t) with
       | c :: _ => Text.is_space c = false
       | [] => True
       end.
Proof.
  destruct (lstrip_split (rev t)) as (pre & Ht & Hpre & Hhd).
  exists (rev pre). unfold Text.rstrip. rewrite rev_involutive.
  split; [|split; [|exact Hhd]].
  - rewrite <- rev_app_distr, <- Ht. by rewrite rev_involutive.
  - apply forallb_forall. intros c Hc. apply in_rev in Hc.
    rewrite forallb_forall in Hpre. by apply Hpre.
Qed.

(** X19: trimming removes whitespace from the two ends and nothing else:
    the text is a run of whitespace, the trimmed text, and a run of
    whitespace, and the trimmed text neither starts nor ends with
    whitespace (whitespace inside a snippet is kept). *)
Theorem strip_split s :
  exists pre post,
    s = pre ++ Text.strip s ++ post
    /\ forallb Text.is_space pre = true
    /\ forallb Text.is_space post = true
    /\ match Text.strip s with
       | c :: _ => Text.is_space c = false
       | [] => True
       end
    /\ match rev (Text.strip s) with
       | c :: _ => Text.is_space c = false
       | [] => True
       end.
Proof.
  destruct (lstrip_split s) as (pre & Hs & Hpre & Hhd).
  destruct (rstrip_split (Text.lstrip s)) as (post & Ht & Hpost & Hlast).
  exists pre, post. unfold Text.strip.
  split; [by rewrite <- Ht|]. split; [exact Hpre|]. split; [exact Hpost|].
  split; [|exact Hlast].
  destruct (Text.rstrip (Text.lstrip s)) as [|c u]; [exact I|].
  rewrite Ht in Hhd. exact Hhd.
Qed.

(** ** Counting tags *)

Lemma additive_nil p : additive p [].
Proof. intros b. reflexivity. Qed.

Lemma additive_app p a b : additive p a -> additive p b -> additive p (a ++ b).
Proof.
  intros Ha Hb c. rewrite <- app_assoc, Ha, Hb, (Ha b). lia.
Qed.

Lemma list_sum_const {A} (k : nat) (l : list A) :
  list_sum (map (fun _ => k) l) = (length l * k)%nat.
Proof.
  induction l as [|x l IH]; [done|]. cbn [map length].
  change (list_sum (k :: map (fun _ : A => k) l))
    with (k + list_sum (map (fun _ : A => k) l))%nat.
  rewrite IH. lia.
Qed.

Lemma list_sum_cons (x : nat) l : list_sum (x :: l) = (x + list_sum l)%nat.
Proof. reflexivity. Qed.

Section Count.

(** A pattern that opens with [<] and that no fixed piece of the digest
    can complete across its end. *)
Variable p : Text.
Hypothesis p_lt : head p = Some Text.c_lt.
Hypothesis p_literals : Forall (additive p) template_literals.

Local Abbreviation count := (count_sub p).

Ltac literal :=
  let H := fresh in
  pose proof p_literals as H;
  rewrite Forall_forall in H; apply H; apply list_elem_of_In;
  repeat (first [left; reflexivity | right]).

Lemma starts_with_other c s :
  (c =? Text.c_lt)%N = false -> starts_with p (c :: s) = false.
Proof.
  intros Hc. destruct p as [|a q]; [discriminate|].
  injection p_lt as ->. cbn [starts_with].
  rewrite N.eqb_sym, Hc. reflexivity.
Qed.

(** A text without angle brackets holds no occurrence and completes
    none. *)
Lemma count_no_angle a b : no_angle a = true -> count (a ++ b) = count b.
Proof.
  induction a as [|c a IH]; [done|].
  cbn [no_angle forallb]. intros [Hc Ha]%andb_prop.
  cbn [app count_sub]. rewrite starts_with_other, (IH Ha); [done|].
  unfold is_angle in Hc. by destruct (c =? Text.c_lt)%N.
Qed.

Lemma additive_no_angle a : no_angle a = true -> additive p a /\ count a = O.
Proof.
  intros Ha.
  assert (H0 : count a = O).
  { rewrite <- (app_nil_r a). by rewrite count_no_angle. }
  split; [|exact H0]. intros b. by rewrite count_no_angle, H0.
Qed.

Lemma additive_escape s : additive p (escape s).
Proof. apply additive_no_angle, escape_no_angle. Qed.

Lemma count_escape s : count (escape s) = O.
Proof. apply additive_no_angle, escape_no_angle. Qed.

Lemma additive_stamp dt : additive p (strftime_minute_zone dt).
Proof.
  apply additive_no_angle, no_markup_no_angle, no_markup_strftime_minute_zone.
Qed.

Lemma count_stamp dt : count (strftime_minute_zone dt) = O.
Proof.
  apply additive_no_angle, no_markup_no_angle, no_markup_strftime_minute_zone.
Qed.

Lemma additive_item_line r :
  additive p (item_line r) /\ count (item_line r) = count (item_line blank).
Proof.
  assert (H1 : additive p (lit "<li><a href=")) by literal.
  assert (H2 : additive p [Text.c_quot]) by literal.
  assert (H3 : additive p (lit ">")) by literal.
  assert (H4 : additive p (lit "</a><br/><small>")) by literal.
  assert (H5 : additive p (lit "</small></li>")) by literal.
  assert (Hcount : forall r',
            count (item_line r')
            = (count (lit "<li><a href=") + (count [Text.c_quot]
               + (count [Text.c_quot] + (count (lit ">")
               + (count (lit "</a><br/><small>")
               + count (lit "</small></li>"))))))%nat).
  { intros r'. unfold item_line. cbn zeta.
    rewrite H1, H2, (additive_escape _ _), count_escape, H2, H3,
      (additive_escape _ _), count_escape, H4, (additive_escape _ _),
      count_escape.
    lia. }
  split; [|by rewrite !Hcount].
  unfold item_line. cbn zeta.
  repeat (apply additive_app; [first [assumption|apply additive_escape]|]).
  exact H5.
Qed.

Lemma additive_heading query :
  additive p (lit "<h2>Job search results: " ++ escape query ++ lit "</h2>")
  /\ count (lit "<h2>Job search results: " ++ escape query ++ lit "</h2>")
     = (count (lit "<h2>Job search results: ") + count (lit "</h2>"))%nat.
Proof.
  assert (H1 : additive p (lit "<h2>Job search results: ")) by literal.
  assert (H2 : additive p (lit "</h2>")) by literal.
  split.
  - apply additive_app; [exact H1|].
    apply additive_app; [apply additive_escape|exact H2].
  - by rewrite H1, (additive_escape _ _), count_escape.
Qed.

Lemma additive_stamp_line now :
  additive p
    (lit "<p>Search run at " ++ strftime_minute_zone now ++ lit " (IST)</p>")
  /\ count (lit "<p>Search run at " ++ strftime_minute_zone now
              ++ lit " (IST)</p>")
     = (count (lit "<p>Search run at ") + count (lit " (IST)</p>"))%nat.
Proof.
  assert (H1 : additive p (lit "<p>Search run at ")) by literal.
  assert (H2 : additive p (lit " (IST)</p>")) by literal.
  split.
  - apply additive_app; [exact H1|].
    apply additive_app; [apply additive_stamp|exact H2].
  - by rewrite H1, (additive_stamp _ _), count_stamp.
Qed.

(** Occurrences in a joined text are those of its lines. *)
Lemma count_join lines :
  Forall (additive p) lines ->
  count (Text.join [Text.c_nl] lines) = list_sum (map count lines).
Proof.
  assert (Hnl : additive p [Text.c_nl]) by literal.
  assert (Hnl0 : count [Text.c_nl] = O).
  { cbn [count_sub]. by rewrite starts_with_other. }
  induction 1 as [|l lines Hl Hlines IH]; [reflexivity|].
  destruct lines as [|l' rest].
  - cbn. lia.
  - rewrite join_cons, Hl, Hnl, Hnl0, IH. reflexivity.
Qed.

(** The occurrences in a digest: those of its fixed lines, and those of
    the blank item once per result. *)
Lemma count_digest now results query :
  count (Text.join [Text.c_nl] (digest_lines now results query))
  = (count (lit "<h2>Job search results: ") + count (lit "</h2>")
     + (count (lit "<p>Search run at ") + count (lit " (IST)</p>"))
     + match results with
       | [] => count (lit "<p>No results found.</p>")
       | _ :: _ =>
           count (lit "<ol>") + length results * count (item_line blank)
           + count (lit "</ol>")
       end
     + count (lit "<hr/><p>Automation generated - tweak the queries or sources in the script as needed.</p>"))%nat.
Proof.
  assert (Hno : additive p (lit "<p>No results found.</p>")) by literal.
  assert (Hol : additive p (lit "<ol>")) by literal.
  assert (Hcl : additive p (lit "</ol>")) by literal.
  assert (Hft : additive p (lit "<hr/><p>Automation generated - tweak the queries or sources in the script as needed.</p>")) by literal.
  destruct (additive_heading query) as [Hh Hhc].
  destruct (additive_stamp_line now) as [Hs Hsc].
  destruct results as [|r rs].
  - rewrite digest_lines_nil, count_join by (repeat constructor; assumption).
    cbn [map]. rewrite !list_sum_cons, Hhc, Hsc.
    change (list_sum []) with O. lia.
  - rewrite digest_lines_cons, count_join.
    + set (items := r :: rs).
      rewrite !map_cons, map_app, map_map, !list_sum_cons, list_sum_app.
      cbn [map]. rewrite !list_sum_cons. change (list_sum []) with O.
      rewrite (map_ext _ (fun _ => count (item_line blank)))
        by (intros r'; apply additive_item_line).
      rewrite list_sum_const, Hhc, Hsc. lia.
    + constructor; [exact Hh|]. constructor; [exact Hs|].
      constructor; [exact Hol|]. apply Forall_app. split.
      * apply Forall_forall. intros l [r' [-> _]]%list_elem_of_fmap.
        apply additive_item_line.
      * repeat constructor; assumption.
Qed.

End Count.

Ltac tally :=
  repeat match goal with
         | |- context [count_sub ?p ?s] =>
             let v := eval vm_compute in (count_sub p s) in
             change (count_sub p s) with v
         end;
  cbn [length]; lia.

Ltac template :=
  repeat (apply List.Forall_cons; [intros b; reflexivity|]);
  apply List.Forall_nil.

(** X20: the document holds exactly one [<li>] ... [</li>] pair per result,
    and one [<ol>] ... [</ol>] pair when there is at least one result and
    none otherwise, whatever the texts of the results and the query. *)
Theorem format_email_html_list_items results query w :
  exists html,
    format_email_html results query w = Ok html w
    /\ count_sub (lit "<li>") html = length results
    /\ count_sub (lit "</li>") html = length results
    /\ count_sub (lit "<ol>") html = (if results is [] then 0 else 1)%nat
    /\ count_sub (lit "</ol>") html = (if results is [] then 0 else 1)%nat.
Proof.
  eexists. split; [apply format_email_html_run|].
  split; [|split; [|split]].
  - rewrite (count_digest (lit "<li>") eq_refl) by template.
    destruct results; tally.
  - rewrite (count_digest (lit "</li>") eq_refl) by template.
    destruct results; tally.
  - rewrite (count_digest (lit "<ol>") eq_refl) by template.
    destruct results; tally.
  - rewrite (count_digest (lit "</ol>") eq_refl) by template.
    destruct results; tally.
Qed.
